(** * Luma attendance importer: person resolution and attendance ingestion

    A shallow embedding of [import_luma_attendance.py]: the normalizers,
    the invite-token registry, the person matcher cascade, contact merge,
    attendance recording with the first-event recomputation, referral
    crediting and the per-event batch loop.

    Modelling conventions.
    - Python strings are [string] (ASCII); [lower], [strip], [title] and
      the substring test [in] are written out below for ASCII.
    - A Python value that may be [None] (or pandas NA, which [na_to_none]
      turns into [None]) is an [option].
    - Database tables are stdpp finite maps keyed by their primary key
      ([people] by id, [attendance] by (person_id, event_id)); the invite
      token table is a list of rows in insertion order.  A [SELECT] whose
      row order is not fixed by the query returns rows in [map_to_list]
      order.
    - A Python exception is the [Raise] case of [result]. *)

From stdpp Require Import base gmap list strings.
From Stdlib Require Import Ascii String ZArith QArith Lia.
Import ListNotations.

Open Scope string_scope.
Open Scope Z_scope.

(* ------------------------------------------------------------------ *)
(** ** Python string primitives (ASCII) *)

Module Py.

Definition lower_char (c : ascii) : ascii :=
  let n := nat_of_ascii c in
  if (65 <=? n)%nat && (n <=? 90)%nat then ascii_of_nat (n + 32) else c.

Fixpoint lower (s : string) : string :=
  match s with
  | EmptyString => EmptyString
  | String c t => String (lower_char c) (lower t)
  end.

Definition upper_char (c : ascii) : ascii :=
  let n := nat_of_ascii c in
  if (97 <=? n)%nat && (n <=? 122)%nat then ascii_of_nat (n - 32) else c.

Definition is_cased (c : ascii) : bool :=
  let n := nat_of_ascii c in
  ((65 <=? n)%nat && (n <=? 90)%nat) || ((97 <=? n)%nat && (n <=? 122)%nat).

(** [str.title]: a cased character following a cased one is lowered,
    any other cased character is upper-cased. *)
Fixpoint title_from (prev_cased : bool) (s : string) : string :=
  match s with
  | EmptyString => EmptyString
  | String c t =>
      let c' := if prev_cased then lower_char c else upper_char c in
      String c' (title_from (is_cased c) t)
  end.

Definition title (s : string) : string := title_from false s.

(** ASCII characters that [str.isspace] accepts. *)
Definition is_space (c : ascii) : bool :=
  let n := nat_of_ascii c in
  ((9 <=? n)%nat && (n <=? 13)%nat) || ((28 <=? n)%nat && (n <=? 32)%nat).

Fixpoint lstrip (s : string) : string :=
  match s with
  | EmptyString => EmptyString
  | String c t => if is_space c then lstrip t else s
  end.

Fixpoint rev_str (s : string) (acc : string) : string :=
  match s with
  | EmptyString => acc
  | String c t => rev_str t (String c acc)
  end.

Definition rstrip (s : string) : string :=
  rev_str (lstrip (rev_str s EmptyString)) EmptyString.

Definition strip (s : string) : string := rstrip (lstrip s).

(** [needle in hay] for strings. *)
Fixpoint contains (needle hay : string) : bool :=
  String.prefix needle hay ||
  match hay with
  | EmptyString => false
  | String _ t => contains needle t
  end.

Definition is_digit (c : ascii) : bool :=
  let n := nat_of_ascii c in (48 <=? n)%nat && (n <=? 57)%nat.

Fixpoint all_digits (s : string) : bool :=
  match s with
  | EmptyString => true
  | String c t => is_digit c && all_digits t
  end.

(** [str.isdigit]: non-empty and every character a digit. *)
Definition isdigit (s : string) : bool :=
  negb (String.eqb s EmptyString) && all_digits s.

(** [int(s)] on a digit string. *)
Fixpoint digits_value_acc (acc : Z) (s : string) : Z :=
  match s with
  | EmptyString => acc
  | String c t =>
      digits_value_acc (10 * acc + (Z.of_nat (nat_of_ascii c) - 48)) t
  end.

Definition int_of_digits (s : string) : Z := digits_value_acc 0 s.

(** [s[:n]] *)
Definition take (n : nat) (s : string) : string := String.substring 0 n s.

(** Truthiness of an optional string: [None] and [""] are false. *)
Definition truthy (o : option string) : bool :=
  match o with
  | Some s => negb (String.eqb s EmptyString)
  | None => false
  end.

(** [s[1:]] *)
Definition drop1 (s : string) : string :=
  match s with
  | EmptyString => EmptyString
  | String _ t => t
  end.

(** [x is None] and [x is not None] *)
Definition is_none {A : Type} (o : option A) : bool :=
  match o with None => true | Some _ => false end.
Definition is_some {A : Type} (o : option A) : bool := negb (is_none o).

(** [any(x in s for x in xs)] *)
Definition any_in (xs : list string) (s : string) : bool :=
  existsb (fun x => contains x s) xs.

End Py.

Import Py.

(* ------------------------------------------------------------------ *)
(** ** Normalizer *)

Inductive school_value := Harvard | MIT | Other.

(** [normalize_school(school_str, email_str)]; [None] is Python's [None]. *)
Definition normalize_school (school_str email_str : option string) : option school_value :=
  let from_text :=
    match school_str with
    | None => None
    | Some s =>
        let school_lower := lower s in
        if contains "harvard" school_lower then
          if negb (contains "business" school_lower) && negb (contains "hbs" school_lower)
          then Some Harvard else Some Other
        else if contains "mit" school_lower then Some MIT
        else if negb (String.eqb school_lower "") then Some Other
        else None
    end in
  if truthy email_str then
    let email_lower := lower (default "" email_str) in
    if contains "@harvard.edu" email_lower || contains "@college.harvard.edu" email_lower
    then Some Harvard
    else if contains "@mit.edu" email_lower then Some MIT
    else if contains ".edu" email_lower then Some Other
    else from_text
  else from_text.

(** [normalize_class_year(year_str)], with [datetime.now()] given as
    [now_year] and [now_month]. *)
Definition normalize_class_year (now_year now_month : Z) (year_str : option string)
  : option Z :=
  match year_str with
  | None => None
  | Some raw =>
      let s := strip (lower raw) in
      let by_keyword :=
        let current_year := if 9 <=? now_month then now_year else now_year - 1 in
        if any_in ["freshman"; "first"; "1st"] s then Some (current_year + 4)
        else if any_in ["sophomore"; "second"; "2nd"] s then Some (current_year + 3)
        else if any_in ["junior"; "third"; "3rd"] s then Some (current_year + 2)
        else if any_in ["senior"; "fourth"; "4th"] s then Some (current_year + 1)
        else None in
      if isdigit s && (String.length s =? 4)%nat then Some (int_of_digits s)
      else if String.prefix "'" s && isdigit (drop1 s) then Some (2000 + int_of_digits (drop1 s))
      else by_keyword
  end.

(* ------------------------------------------------------------------ *)
(** ** Database state *)

(** A row of [people]. *)
Record person := mk_person {
  first_name : option string;
  last_name : option string;
  gender : option string;
  class_year : option Z;
  school : option school_value;
  preferred_name : option string;
  school_email : option string;
  personal_email : option string;
  phone_number : option string;
  referral_count : Z;
  event_attendance_count : Z
}.

(** A row of [attendance], keyed by [(person_id, event_id)]. *)
Record attendance_row := mk_attendance {
  rsvp : bool;
  approved : bool;
  checked_in : bool;
  rsvp_datetime : option Z;
  is_first_event : bool;
  invite_token_id : Z
}.

(** A row of [invitetokens]. *)
Record invite_token := mk_token {
  tok_id : Z;
  tok_event_id : Z;
  tok_category : string;
  tok_value : string
}.

(** The columns of [events] this importer reads or writes. *)
Record event := mk_event {
  start_datetime : Z;
  event_attendance : Z
}.

(** The database; [next_*_id] are the serial sequences behind
    [RETURNING id]. *)
Record db := mk_db {
  people : gmap Z person;
  attendance : gmap (Z * Z) attendance_row;
  invitetokens : list invite_token;
  events : gmap Z event;
  next_person_id : Z;
  next_token_id : Z
}.

Definition set_people (d : db) (ps : gmap Z person) : db :=
  mk_db ps (attendance d) (invitetokens d) (events d) (next_person_id d) (next_token_id d).
Definition set_attendance (d : db) (a : gmap (Z * Z) attendance_row) : db :=
  mk_db (people d) a (invitetokens d) (events d) (next_person_id d) (next_token_id d).
Definition set_events (d : db) (es : gmap Z event) : db :=
  mk_db (people d) (attendance d) (invitetokens d) es (next_person_id d) (next_token_id d).

(* ------------------------------------------------------------------ *)
(** ** TokenRegistry *)

Definition generic_codes : list string :=
  ["default"; "emailreferral"; "email"; "instagram"; "facebook"].

Definition is_generic (s : string) : bool := existsb (String.eqb s) generic_codes.

(** [SELECT id FROM invitetokens WHERE event_id = %s AND value = %s] *)
Definition lookup_token (ts : list invite_token) (event_id : Z) (value : string)
  : option invite_token :=
  find (fun t => (tok_event_id t =? event_id) && String.eqb (tok_value t) value) ts.

(** [find_or_create_invite_token(cursor, event_id, tracking_link)] *)
Definition find_or_create_invite_token (d : db) (event_id : Z) (tracking_link : option string)
  : Z * db :=
  let raw := if truthy tracking_link then default "" tracking_link else "default" in
  let tracking_link := take 100 (strip raw) in
  let '(tracking_link, category) :=
    if is_generic (lower tracking_link) then ("default", "mailing list")
    else (tracking_link, "personal outreach") in
  match lookup_token (invitetokens d) event_id tracking_link with
  | Some t => (tok_id t, d)
  | None =>
      let token_id := next_token_id d in
      (token_id,
       mk_db (people d) (attendance d)
             (invitetokens d ++ [mk_token token_id event_id category tracking_link])
             (events d) (next_person_id d) (token_id + 1))
  end.

(** A sequence of calls, each on the state the previous one left. *)
Fixpoint run_token_calls (d : db) (calls : list (Z * option string)) : db :=
  match calls with
  | [] => d
  | (e, tl) :: rest => run_token_calls (find_or_create_invite_token d e tl).2 rest
  end.

(** The uniqueness of [(event_id, value)] in [invitetokens]. *)
Definition tokens_unique (ts : list invite_token) : Prop :=
  NoDup (map (fun t => (tok_event_id t, tok_value t)) ts).

(** The shape of every row this registry writes: a value whose lower-cased
    form is generic is the sentinel itself, and the category is
    "mailing list" exactly for the sentinel. *)
Definition token_row_wf (t : invite_token) : Prop :=
  (is_generic (lower (tok_value t)) = true -> tok_value t = "default") /\
  tok_category t = (if String.eqb (tok_value t) "default" then "mailing list"
                    else "personal outreach").

Definition tokens_wf (ts : list invite_token) : Prop :=
  tokens_unique ts /\ Forall token_row_wf ts.

(* ------------------------------------------------------------------ *)
(** ** Exceptions *)

(** A computation that returns a value or raises a Python exception. *)
Inductive result (A : Type) : Type :=
  | Ok (a : A)
  | Raise (exn : string).
Arguments Ok {A} a.
Arguments Raise {A} exn.

Global Instance result_ret : MRet result := fun A a => Ok a.
Global Instance result_bind : MBind result := fun A B f m =>
  match m with
  | Ok a => f a
  | Raise e => Raise e
  end.

(* ------------------------------------------------------------------ *)
(** ** [difflib.SequenceMatcher(None, a, b).ratio()]

    Without a junk function; the automatic junk heuristic of difflib only
    acts when [b] has 200 or more characters and is not modelled.  The
    Python result is a float [2.0 * matches / length]; here it is the exact
    rational. *)

Module Difflib.

Definition char_at (a : list ascii) (i : nat) : ascii := nth i a "000"%char.

(** Length of the common run of [a] and [b] ending at [(i, j)] that starts
    no earlier than [alo] in [a] and [blo] in [b]; this is the entry
    [j2len[j]] of [find_longest_match] at row [i]. *)
Fixpoint run_len (a b : list ascii) (alo blo : nat) (i j : nat) : nat :=
  if Ascii.eqb (char_at a i) (char_at b j) then
    match i, j with
    | S i', S j' =>
        if (alo <=? i')%nat && (blo <=? j')%nat
        then S (run_len a b alo blo i' j') else 1
    | _, _ => 1
    end
  else 0.

(** [find_longest_match(alo, ahi, blo, bhi)]: the longest block, the one
    found first scanning [i] then [j] upwards. *)
Definition find_longest_match (a b : list ascii) (alo ahi blo bhi : nat)
  : nat * nat * nat :=
  fold_left
    (fun acc i =>
       fold_left
         (fun '(besti, bestj, bestsize) j =>
            let k := run_len a b alo blo i j in
            if (bestsize <? k)%nat then (i + 1 - k, j + 1 - k, k)%nat
            else (besti, bestj, bestsize))
         (seq blo (bhi - blo)) acc)
    (seq alo (ahi - alo)) (alo, blo, 0%nat).

(** The total size of [get_matching_blocks()]: the longest block, then the
    same on the pieces to its left and to its right. *)
Fixpoint matched_total (fuel : nat) (a b : list ascii) (alo ahi blo bhi : nat) : nat :=
  match fuel with
  | O => O
  | S f =>
      let '(i, j, k) := find_longest_match a b alo ahi blo bhi in
      if (k =? 0)%nat then O
      else (k
            + (if (alo <? i)%nat && (blo <? j)%nat
               then matched_total f a b alo i blo j else 0)
            + (if (i + k <? ahi)%nat && (j + k <? bhi)%nat
               then matched_total f a b (i + k) ahi (j + k) bhi else 0))%nat
  end.

Definition ratio (s1 s2 : string) : Q :=
  let a := list_ascii_of_string s1 in
  let b := list_ascii_of_string s2 in
  let la := List.length a in
  let lb := List.length b in
  let matches := matched_total (S la) a b 0 la 0 lb in
  if (la + lb =? 0)%nat then 1%Q
  else Qmake (Z.of_nat (2 * matches)) (Pos.of_nat (la + lb)).

End Difflib.

(* ------------------------------------------------------------------ *)
(** ** Matcher *)

(** Truthiness of an optional person id ([None] and [0] are false). *)
Definition id_truthy (o : option Z) : bool :=
  match o with
  | Some z => negb (z =? 0)
  | None => false
  end.

(** SQL [LOWER(col) = v]; [NULL] compares unequal. *)
Definition sql_lower_eq (col : option string) (v : string) : bool :=
  match col with
  | Some c => String.eqb (lower c) v
  | None => false
  end.

(** The first row of [people] satisfying [p] ([fetchone]). *)
Definition select_person (ps : gmap Z person) (p : Z -> person -> bool) : option Z :=
  fst <$> List.find (fun '(i, x) => p i x) (map_to_list ps).

(** [find_person_by_email(cursor, email)] *)
Definition find_person_by_email (ps : gmap Z person) (email : option string) : option Z :=
  if negb (truthy email) then None
  else
    let e := strip (lower (default "" email)) in
    select_person ps (fun _ x => sql_lower_eq (school_email x) e
                                 || sql_lower_eq (personal_email x) e).

(** [find_person_by_phone(cursor, phone)] *)
Definition find_person_by_phone (ps : gmap Z person) (phone : option string) : option Z :=
  if negb (truthy phone) then None
  else
    let ph := strip (default "" phone) in
    select_person ps (fun _ x => match phone_number x with
                                 | Some q => String.eqb q ph
                                 | None => false
                                 end).

(** [find_person_by_name(cursor, first_name, last_name)]; with several
    matches the first row is used. *)
Definition find_person_by_name (ps : gmap Z person) (fname lname : option string)
  : option Z :=
  if negb (truthy fname) || negb (truthy lname) then None
  else
    let f := title (strip (default "" fname)) in
    let l := title (strip (default "" lname)) in
    select_person ps (fun _ x => sql_lower_eq (first_name x) (lower f)
                                 && sql_lower_eq (last_name x) (lower l)).

(** [matches.sort(key=lambda x: x[1], reverse=True)]: a stable sort by
    decreasing ratio (equal ratios keep their order). *)
Fixpoint insert_desc (x : Z * Q) (l : list (Z * Q)) : list (Z * Q) :=
  match l with
  | [] => [x]
  | y :: l' => if Qle_bool (snd x) (snd y) then y :: insert_desc x l' else x :: l
  end.

Definition sort_desc (l : list (Z * Q)) : list (Z * Q) :=
  fold_left (fun acc x => insert_desc x acc) l [].

Definition FUZZY_MATCH_THRESHOLD : Q := 80 # 100.

(** The averaged ratio of one candidate; [db_first.lower()] on a [NULL]
    name raises [AttributeError]. *)
Definition candidate_ratio (f l : string) (x : person) : result Q :=
  match first_name x, last_name x with
  | Some db_first, Some db_last =>
      Ok ((Difflib.ratio f (lower db_first) + Difflib.ratio l (lower db_last)) / 2)%Q
  | _, _ => Raise "AttributeError: 'NoneType' object has no attribute 'lower'"
  end.

(** The shortlist [matches], in the order of the people rows. *)
Fixpoint shortlist (f l : string) (rows : list (Z * person)) : result (list (Z * Q)) :=
  match rows with
  | [] => Ok []
  | (i, x) :: rest =>
      avg ← candidate_ratio f l x;
      tl ← shortlist f l rest;
      Ok (if Qle_bool FUZZY_MATCH_THRESHOLD avg then (i, avg) :: tl else tl)
  end.

(** [fuzzy_match_name(cursor, first_name, last_name)] *)
Definition fuzzy_match_name (ps : gmap Z person) (fname lname : option string)
  : result (option Z) :=
  if negb (truthy fname) || negb (truthy lname) then Ok None
  else
    let f := lower (title (strip (default "" fname))) in
    let l := lower (title (strip (default "" lname))) in
    matches ← shortlist f l (map_to_list ps);
    match sort_desc matches with
    | best :: _ => Ok (if Qle_bool (90 # 100) (snd best) then Some (fst best) else None)
    | [] => Ok None
    end.

(* ------------------------------------------------------------------ *)
(** ** PersonStore *)

(** What the importer reads from the environment: [datetime.now()] and
    [pd.to_datetime(..., errors='coerce')] ([None] for an unparsable
    value). *)
Record env := mk_env {
  now_year : Z;
  now_month : Z;
  to_datetime : string -> option Z
}.

(** One CSV row, after [na_to_none] ([None] for a missing column or NA);
    [r_referral] is the value of the detected referral column, if any. *)
Record csv_row := mk_row {
  r_first_name : option string;
  r_last_name : option string;
  r_email : option string;
  r_school_email : option string;
  r_phone : option string;
  r_approved : option string;
  r_checked_in : option string;
  r_rsvp_datetime : option string;
  r_tracking_link : option string;
  r_gender : option string;
  r_school : option string;
  r_class_year : option string;
  r_referral : option string
}.

(** The [row_data] dictionary of [find_or_create_person]. *)
Record row_data := mk_row_data {
  rd_first_name : option string;
  rd_last_name : option string;
  rd_school_email : option string;
  rd_personal_email : option string;
  rd_phone : option string;
  rd_gender : option string;
  rd_school : option school_value;
  rd_class_year : option Z
}.

(** [normalize_gender(gender_str)] *)
Definition normalize_gender (gender_str : option string) : option string :=
  match gender_str with
  | None => None
  | Some g =>
      let gender_lower := strip (lower g) in
      if existsb (String.eqb gender_lower) ["f"; "female"; "woman"; "girl"] then Some "F"
      else if existsb (String.eqb gender_lower) ["m"; "male"; "man"; "boy"] then Some "M"
      else None
  end.

(** [create_person(cursor, row_data)]: a new row with the next serial id;
    the counters take their column default 0 (the schema is not in the
    source; this is the value the spec states for a new person). *)
Definition create_person (d : db) (rd : row_data) : Z * db :=
  let person_id := next_person_id d in
  let x := mk_person (rd_first_name rd) (rd_last_name rd) (rd_gender rd)
             (rd_class_year rd) (rd_school rd) None None None None 0 0 in
  (person_id,
   mk_db (<[person_id := x]> (people d)) (attendance d) (invitetokens d) (events d)
         (person_id + 1) (next_token_id d)).

(** SQL [COALESCE(col, v)] *)
Definition coalesce (col v : option string) : option string :=
  match col with
  | Some c => Some c
  | None => v
  end.

(** [update_contact_info(cursor, person_id, row_data)] *)
Definition update_contact_info (d : db) (person_id : Z) (rd : row_data) : db * bool :=
  match people d !! person_id with
  | None => (d, false)
  | Some cur =>
      let x := mk_person (first_name cur) (last_name cur) (gender cur) (class_year cur)
                 (school cur) (preferred_name cur)
                 (coalesce (school_email cur) (rd_school_email rd))
                 (coalesce (personal_email cur) (rd_personal_email rd))
                 (coalesce (phone_number cur) (rd_phone rd))
                 (referral_count cur) (event_attendance_count cur) in
      let updated :=
        (is_none (school_email cur) && is_some (rd_school_email rd))
        || (is_none (personal_email cur) && is_some (rd_personal_email rd))
        || (is_none (phone_number cur) && is_some (rd_phone rd)) in
      (set_people d (<[person_id := x]> (people d)), updated)
  end.

(** [max(a, b, key=len)]: the first of the longest. *)
Definition longer (a b : string) : string :=
  if (String.length a <? String.length b)%nat then b else a.

Definition substr_either (a b : string) : bool :=
  contains (lower a) (lower b) || contains (lower b) (lower a).

(** [update_names_if_substring(conn, person_id, sheet_first, sheet_last,
    input_first, input_last)] *)
Definition update_names_if_substring (d : db) (person_id : Z)
  (sheet_first sheet_last : option string) (input_first input_last : option string) : db :=
  let sf := if truthy sheet_first then default "" sheet_first else "" in
  let inf := if truthy input_first then default "" input_first else "" in
  let new_first := if substr_either sf inf then Some (longer sf inf) else None in
  let new_last :=
    match sheet_last, input_last with
    | Some sl, Some il => if substr_either sl il then Some (longer sl il) else None
    | _, _ => None
    end in
  let upd (x : person) :=
    mk_person (match new_first with Some v => Some v | None => first_name x end)
              (match new_last with Some v => Some v | None => last_name x end)
              (gender x) (class_year x) (school x) (preferred_name x) (school_email x)
              (personal_email x) (phone_number x) (referral_count x)
              (event_attendance_count x) in
  if is_none new_first && is_none new_last then d
  else set_people d (alter upd person_id (people d)).

(** [first_name.strip().title()] applied when the value is truthy. *)
Definition clean_name (o : option string) : option string :=
  if truthy o then Some (title (strip (default "" o))) else o.

(** [find_or_create_person(conn, cursor, row)]: returns
    [(person_id, was_created, contact_updated)] and the new state. *)
Definition find_or_create_person (en : env) (d : db) (row : csv_row)
  : result (Z * bool * bool * db) :=
  let fname := clean_name (r_first_name row) in
  let lname := clean_name (r_last_name row) in
  let email := r_email row in
  let school_email_raw := r_school_email row in
  let phone := r_phone row in
  let gender := normalize_gender (r_gender row) in
  let primary_email := if truthy school_email_raw then school_email_raw else email in
  let is_school_email :=
    truthy primary_email && contains ".edu" (lower (default "" primary_email)) in
  let '(school_email_final, personal_email_final) :=
    if is_school_email then
      (primary_email,
       if truthy email && negb (bool_decide (email = school_email_raw)) then email else None)
    else (None, primary_email) in
  let school := normalize_school (r_school row) primary_email in
  let class_year := normalize_class_year (now_year en) (now_month en) (r_class_year row) in
  let rd := mk_row_data fname lname school_email_final personal_email_final
              (if truthy phone then Some (strip (default "" phone)) else None)
              gender school class_year in
  let ps := people d in
  (* 1. email, school email first *)
  let pid := if truthy school_email_final
             then find_person_by_email ps school_email_final else None in
  let pid := if negb (id_truthy pid) && truthy personal_email_final
             then find_person_by_email ps personal_email_final else pid in
  (* 2. phone *)
  let pid := if negb (id_truthy pid) && truthy phone
             then find_person_by_phone ps phone else pid in
  (* 3. exact name *)
  let pid := if negb (id_truthy pid) && truthy fname && truthy lname
             then find_person_by_name ps fname lname else pid in
  (* 4. fuzzy name *)
  pid ← (if negb (id_truthy pid) && truthy fname && truthy lname
         then fuzzy_match_name ps fname lname else Ok pid);
  (* 5. create *)
  let '(person_id, was_created, d) :=
    match pid with
    | Some i => if id_truthy pid then (i, false, d)
                else let '(i', d') := create_person d rd in (i', true, d')
    | None => let '(i', d') := create_person d rd in (i', true, d')
    end in
  let '(d, contact_updated) := update_contact_info d person_id rd in
  let d :=
    if negb was_created && negb (person_id =? 0) && truthy fname && truthy lname then
      match people d !! person_id with
      | Some x => update_names_if_substring d person_id (first_name x) (last_name x)
                    fname lname
      | None => d
      end
    else d in
  Ok (person_id, was_created, contact_updated, d).

(* ------------------------------------------------------------------ *)
(** ** AttendanceRecorder *)

(** [ORDER BY e.start_datetime ASC LIMIT 1] over the candidates
    [(event_id, start_datetime)]; among equal start times the first row. *)
Fixpoint earliest (best : option (Z * Z)) (cands : list (Z * Z)) : option (Z * Z) :=
  match cands with
  | [] => best
  | (e, t) :: rest =>
      match best with
      | Some (_, tb) => if t <? tb then earliest (Some (e, t)) rest else earliest best rest
      | None => earliest (Some (e, t)) rest
      end
  end.

(** [SELECT a.event_id, e.start_datetime FROM attendance a JOIN events e
    ON a.event_id = e.id WHERE a.person_id = %s AND a.checked_in = TRUE] *)
Definition checked_in_events (d : db) (person_id : Z) : list (Z * Z) :=
  omap (fun '((p, e), r) =>
          if (p =? person_id) && checked_in r then
            (fun ev => (e, start_datetime ev)) <$> events d !! e
          else None)
       (map_to_list (attendance d)).

(** [UPDATE attendance SET is_first_event = v WHERE cond] *)
Definition set_first_event_where (cond : Z * Z -> bool) (v : bool)
  (a : gmap (Z * Z) attendance_row) : gmap (Z * Z) attendance_row :=
  map_imap (fun k r =>
              Some (if cond k
                    then mk_attendance (rsvp r) (approved r) (checked_in r)
                           (rsvp_datetime r) v (invite_token_id r)
                    else r)) a.

(** [INSERT INTO attendance ... ON CONFLICT (person_id, event_id) DO NOTHING] *)
Definition insert_attendance (a : gmap (Z * Z) attendance_row) (person_id event_id : Z)
  (r : attendance_row) : gmap (Z * Z) attendance_row :=
  match a !! (person_id, event_id) with
  | Some _ => a
  | None => <[(person_id, event_id) := r]> a
  end.

(** The [is_first_event] recomputation of [create_attendance_record]. *)
Definition recompute_first_event (d : db) (person_id : Z) : db :=
  match earliest None (checked_in_events d person_id) with
  | Some (earliest_event_id, _) =>
      let a := set_first_event_where
                 (fun k => (k.1 =? person_id) && (k.2 =? earliest_event_id)) true
                 (attendance d) in
      let a := set_first_event_where
                 (fun k => (k.1 =? person_id) && negb (k.2 =? earliest_event_id)) false a in
      set_attendance d a
  | None => d
  end.

(** [create_attendance_record(cursor, person_id, event_id, row)]: returns
    [(tracking_link, checked_in)] and the new state. *)
Definition create_attendance_record (en : env) (d : db) (person_id event_id : Z)
  (row : csv_row) : option string * bool * db :=
  let approved_status := r_approved row in
  let checked_in_value := r_checked_in row in
  let tracking_link := r_tracking_link row in
  let rsvp := is_some approved_status in
  let approved := if truthy approved_status
                  then String.eqb (lower (default "" approved_status)) "completed"
                  else false in
  let checked_in :=
    if truthy checked_in_value
    then existsb (String.eqb (lower (default "" checked_in_value)))
           ["1"; "1.0"; "true"; "yes"]
    else false in
  let rsvp_datetime := if truthy (r_rsvp_datetime row)
                       then to_datetime en (default "" (r_rsvp_datetime row)) else None in
  let '(invite_token_id, d) := find_or_create_invite_token d event_id tracking_link in
  let d := set_attendance d
             (insert_attendance (attendance d) person_id event_id
                (mk_attendance rsvp approved checked_in rsvp_datetime false invite_token_id)) in
  let d := if checked_in then recompute_first_event d person_id else d in
  (tracking_link, checked_in, d).

(** [update_event_attendance_count(conn, event_id)] *)
Definition count_checked_in (a : gmap (Z * Z) attendance_row) (p : Z * Z -> bool) : Z :=
  Z.of_nat (List.length (List.filter (fun '(k, r) => p k && checked_in r) (map_to_list a))).

Definition update_event_attendance_count (d : db) (event_id : Z) : Z * db :=
  let count := count_checked_in (attendance d) (fun k => k.2 =? event_id) in
  (count,
   set_events d (alter (fun ev => mk_event (start_datetime ev) count) event_id (events d))).

(** [update_person_attendance_counts(conn, event_id)] *)
Definition update_person_attendance_counts (d : db) (event_id : Z) : db :=
  let attended (i : Z) :=
    existsb (fun '(k, _) => (k.1 =? i) && (k.2 =? event_id)) (map_to_list (attendance d)) in
  set_people d
    (map_imap (fun i x =>
                 Some (if attended i then
                         mk_person (first_name x) (last_name x) (gender x) (class_year x)
                           (school x) (preferred_name x) (school_email x)
                           (personal_email x) (phone_number x) (referral_count x)
                           (count_checked_in (attendance d) (fun k => k.1 =? i))
                       else x))
              (people d)).

(* ------------------------------------------------------------------ *)
(** ** ReferralAttributor *)

Definition replace_char (c c' : ascii) (s : string) : string :=
  string_of_list_ascii
    (map (fun x => if Ascii.eqb x c then c' else x) (list_ascii_of_string s)).

Definition tracking_generic_codes : list string :=
  ["default"; "emailreferral"; "email_first_button"; "email_second_button"; "email";
   "txt"; "insta"; "maillist"; "lastname"; "[name]"].

(** [person['first_name'].lower() if person['first_name'] else ''] *)
Definition lower_or_empty (o : option string) : string :=
  if truthy o then lower (default "" o) else "".

(** The fuzzy pass of [match_tracking_link_to_person]: [(best_match,
    best_ratio)] after one person. *)
Definition tracking_fuzzy_step (clean_name : string) (is_single_word : bool)
  (fuzzy_threshold : Q) (acc : option Z * Q) (row : Z * person) : option Z * Q :=
  let '(i, x) := row in
  let first := lower_or_empty (first_name x) in
  let last := lower_or_empty (last_name x) in
  let try_name (acc : option Z * Q) (nm : string) :=
    let r := Difflib.ratio clean_name nm in
    if Qle_bool fuzzy_threshold r && negb (Qle_bool r acc.2) then (Some i, r) else acc in
  let acc := if negb (String.eqb first "") then try_name acc first else acc in
  if negb is_single_word && negb (String.eqb last "") then try_name acc last else acc.

(** [match_tracking_link_to_person(conn, link_value, fuzzy_threshold=0.8)] *)
Definition match_tracking_link_to_person (ps : gmap Z person) (link_value : option string)
  : option Z :=
  if negb (truthy link_value) then None
  else
    let lv := lower (strip (default "" link_value)) in
    if existsb (String.eqb lv) tracking_generic_codes then None
    else
      let is_single_word := negb (contains "_" lv) && negb (contains "-" lv) in
      let clean_name := strip (replace_char "-" " " (replace_char "_" " " lv)) in
      let all_people := map_to_list ps in
      match List.find (fun '(_, x) =>
                         String.eqb clean_name (lower_or_empty (first_name x))
                         || (negb is_single_word
                             && String.eqb clean_name (lower_or_empty (last_name x))))
                      all_people with
      | Some (i, _) => Some i
      | None =>
          (fold_left (tracking_fuzzy_step clean_name is_single_word (80 # 100))
             all_people (None, 0%Q)).1
      end.

(** The referrer of a checked-in row: the tracking link, then the referral
    column, whose value is passed to [fuzzy_match_name] with last name [""]. *)
Definition resolve_referrer (ps : gmap Z person) (tracking_link : option string)
  (referral : option string) : result (option Z) :=
  let referrer_id := if truthy tracking_link
                     then match_tracking_link_to_person ps tracking_link else None in
  match referral with
  | Some v =>
      referrer_matches ← fuzzy_match_name ps (Some (strip v)) (Some "");
      Ok (if id_truthy referrer_matches then referrer_matches else referrer_id)
  | None => Ok referrer_id
  end.

(** [SET referral_count = referral_count + 1] *)
Definition incr_referral (x : person) : person :=
  mk_person (first_name x) (last_name x) (gender x) (class_year x) (school x)
    (preferred_name x) (school_email x) (personal_email x) (phone_number x)
    (referral_count x + 1) (event_attendance_count x).

(** [UPDATE people SET referral_count = referral_count + 1 WHERE id = %s]
    when [referrer_id and referrer_id != person_id]. *)
Definition credit_referral (ps : gmap Z person) (referrer_id : option Z) (person_id : Z)
  : gmap Z person :=
  match referrer_id with
  | Some r =>
      if id_truthy referrer_id && negb (r =? person_id) then alter incr_referral r ps
      else ps
  | None => ps
  end.

(** The referral block of the row loop of [process_event_csv]. *)
Definition referral_step (d : db) (checked_in : bool) (tracking_link referral : option string)
  (person_id : Z) : result db :=
  if checked_in then
    referrer_id ← resolve_referrer (people d) tracking_link referral;
    Ok (set_people d (credit_referral (people d) referrer_id person_id))
  else Ok d.

(* ------------------------------------------------------------------ *)
(** ** The batch loop *)

(** One row of [process_event_csv]. *)
Definition process_row (en : env) (event_id : Z) (d : db) (row : csv_row) : result db :=
  '(person_id, _, _, d) ← find_or_create_person en d row;
  let '(tracking_link, checked_in, d) := create_attendance_record en d person_id event_id row in
  referral_step d checked_in tracking_link (r_referral row) person_id.

Fixpoint process_rows (en : env) (event_id : Z) (d : db) (rows : list csv_row) : result db :=
  match rows with
  | [] => Ok d
  | row :: rest => d' ← process_row en event_id d row; process_rows en event_id d' rest
  end.

(** [process_event_csv(event_id, csv_path, event_name)] on the rows of the
    CSV; commits and connection refreshes do not change the state. *)
Definition process_event_csv (en : env) (event_id : Z) (d : db) (rows : list csv_row)
  : result db :=
  d ← process_rows en event_id d rows;
  let '(_, d) := update_event_attendance_count d event_id in
  Ok (update_person_attendance_counts d event_id).

(** The head of a list of [(id, ratio)] pairs has the largest ratio. *)
Definition head_max (l : list (Z * Q)) : Prop :=
  forall h t, l = h :: t -> forall y, y ∈ t -> (snd y <= snd h)%Q.

(** The length of an optional name, [NULL] counting as empty. *)
Definition opt_length (o : option string) : nat :=
  match o with
  | Some s => String.length s
  | None => 0%nat
  end.

(** Every row of [a] is still in [a'] with the same values apart from
    [is_first_event], and every row of [a'] that [a] lacks belongs to event
    [eid]. *)
Definition attendance_kept (eid : Z) (a a' : gmap (Z * Z) attendance_row) : Prop :=
  (forall k r, a !! k = Some r ->
     exists r', a' !! k = Some r' /\ rsvp r' = rsvp r /\ approved r' = approved r /\
       checked_in r' = checked_in r /\ rsvp_datetime r' = rsvp_datetime r /\
       invite_token_id r' = invite_token_id r) /\
  (forall k r', a' !! k = Some r' -> a !! k = None -> k.2 = eid).

(** What one step of the row loop of [process_event_csv] for event [eid]
    keeps: the events table, every person id, the existing invite tokens
    (new ones are appended and belong to [eid]) and the well-formedness of
    the token registry. *)
Definition tables_grow (eid : Z) (d d' : db) : Prop :=
  events d' = events d /\ dom (people d) ⊆ dom (people d') /\
  (exists ts, invitetokens d' = (invitetokens d ++ ts)%list /\
              Forall (fun t => tok_event_id t = eid) ts) /\
  (tokens_wf (invitetokens d) -> tokens_wf (invitetokens d')).

(** An empty database. *)
Definition empty_db : db := mk_db ∅ ∅ [] ∅ 1 1.

(** John Smith as person 2, an event 7 starting at time 100, a row with an
    email and no names (which creates a person whose names are [NULL]) and a
    row of "Jon Smith". *)
Definition john : person :=
  mk_person (Some "John") (Some "Smith") None None None None None
    (Some "john@example.com") None 0 0.

Definition john_db : db :=
  mk_db {[ 2 := john ]} ∅ [] {[ 7 := mk_event 100 0 ]} 3 1.

Definition nameless_row : csv_row :=
  mk_row None None (Some "guest@example.com") None None (Some "completed")
    (Some "1") None None None None None None.

Definition jon_row : csv_row :=
  mk_row (Some "Jon") (Some "Smith") None None None (Some "completed")
    (Some "1") None None None None None None.

(** Person 1 checked in at event 7 (start 200), wrongly flagged as a first
    event, with event 5 starting earlier at 100; and a checked-in row. *)
Definition first_event_db : db :=
  mk_db {[ 1 := mk_person (Some "Ben") (Some "Smith") None None None None None None None 0 1 ]}
        {[ (1, 7) := mk_attendance true true true None true 1 ]}
        [] {[ 5 := mk_event 100 0; 7 := mk_event 200 0 ]} 2 1.

Definition checkin_row : csv_row :=
  mk_row (Some "Ben") (Some "Smith") None None None (Some "completed")
    (Some "Yes") None None None None None None.

(** Whether [find_or_create_person], run on [row] in state [d], resolves it
    to a person it did not create and who already has an attendance row for
    [event_id]. *)
Definition resolves_to_attendee (en : env) (event_id : Z) (d : db) (row : csv_row) : bool :=
  match find_or_create_person en d row with
  | Ok (person_id, was_created, _, _) =>
      negb was_created && is_some (attendance d !! (person_id, event_id))
  | Raise _ => false
  end.

(** Whether every row of a run of the row loop from [d] resolves so, each
    in the state the rows before it left. *)
Fixpoint rows_resolve_to_attendees (en : env) (event_id : Z) (d : db) (rows : list csv_row)
  : bool :=
  match rows with
  | [] => true
  | row :: rest =>
      resolves_to_attendee en event_id d row &&
      match process_row en event_id d row with
      | Ok d' => rows_resolve_to_attendees en event_id d' rest
      | Raise _ => false
      end
  end.

(** The two aggregate recomputations that end [process_event_csv]. *)
Definition recount_aggregates (d : db) (event_id : Z) : db :=
  update_person_attendance_counts (update_event_attendance_count d event_id).2 event_id.

(** Ben Smith as person 1 at event 7, and two checked-in rows: "Ben Smith"
    without an email and "Benjamin Smith" with Ben's email. *)
Definition ben_db : db :=
  mk_db {[ 1 := mk_person (Some "Ben") (Some "Smith") None None None None None
                  (Some "ben@example.com") None 0 0 ]}
        ∅ [] {[ 7 := mk_event 100 0 ]} 2 1.

Definition ben_row : csv_row :=
  mk_row (Some "Ben") (Some "Smith") None None None (Some "completed")
    (Some "1") None None None None None None.

Definition benjamin_row : csv_row :=
  mk_row (Some "Benjamin") (Some "Smith") (Some "ben@example.com") None None
    (Some "completed") (Some "1") None None None None None None.

(** The email check that applies in [normalize_school]: a non-empty email
    whose lower-cased form has one of the four domain patterns. *)
Definition email_applies (email_str : option string) : bool :=
  truthy email_str &&
  (let e := lower (default "" email_str) in
   contains "@harvard.edu" e || contains "@college.harvard.edu" e ||
   contains "@mit.edu" e || contains ".edu" e).

(** The anchor year of [normalize_class_year]. *)
Definition academic_anchor (now_year now_month : Z) : Z :=
  if 9 <=? now_month then now_year else now_year - 1.

(** Person 1, Alice Smith, in an event 7 starting at time 100 (the next
    serial person id is 2), and a checked-in row of Bob Jones whose referral
    column names her. *)
Definition alice : person :=
  mk_person (Some "Alice") (Some "Smith") None None None None None None None 0 0.

Definition referral_db : db :=
  mk_db {[ 1 := alice ]} ∅ [] {[ 7 := mk_event 100 0 ]} 2 1.

Definition referred_row : csv_row :=
  mk_row (Some "Bob") (Some "Jones") (Some "bob@example.com") None None (Some "completed")
    (Some "1") None None None None None (Some "Alice Smith").


(* ================================================================== *)
(** * Proofs *)

(** ** String lemmas *)

Module PyFacts.

Definition non_space (c : ascii) : bool := negb (is_space c).

Fixpoint str_forall (p : ascii -> bool) (s : string) : bool :=
  match s with
  | EmptyString => true
  | String c t => p c && str_forall p t
  end.

Lemma is_space_lower_char (c : ascii) : is_space (lower_char c) = is_space c.
Proof.
  unfold lower_char.
  destruct ((65 <=? nat_of_ascii c)%nat && (nat_of_ascii c <=? 90)%nat) eqn:E;
    [|reflexivity].
  apply andb_true_iff in E as [E1 E2].
  apply Nat.leb_le in E1; apply Nat.leb_le in E2.
  unfold is_space. rewrite nat_ascii_embedding by lia.
  destruct ((9 <=? nat_of_ascii c + 32)%nat) eqn:F1,
           ((nat_of_ascii c + 32 <=? 13)%nat) eqn:F2,
           ((28 <=? nat_of_ascii c + 32)%nat) eqn:F3,
           ((nat_of_ascii c + 32 <=? 32)%nat) eqn:F4,
           ((9 <=? nat_of_ascii c)%nat) eqn:G1,
           ((nat_of_ascii c <=? 13)%nat) eqn:G2,
           ((28 <=? nat_of_ascii c)%nat) eqn:G3,
           ((nat_of_ascii c <=? 32)%nat) eqn:G4; simpl; try reflexivity;
    repeat match goal with
           | H : (_ <=? _)%nat = true |- _ => apply Nat.leb_le in H
           | H : (_ <=? _)%nat = false |- _ => apply Nat.leb_gt in H
           end; lia.
Qed.

Lemma str_forall_non_space_lower (s : string) :
  str_forall non_space (lower s) = str_forall non_space s.
Proof.
  induction s as [|c t IH]; simpl; [reflexivity|].
  unfold non_space at 1 3. rewrite is_space_lower_char, IH. reflexivity.
Qed.

Lemma length_lower (s : string) : String.length (lower s) = String.length s.
Proof. induction s as [|c t IH]; simpl; [reflexivity|]. rewrite IH; reflexivity. Qed.

Lemma lstrip_non_space (s : string) :
  str_forall non_space s = true -> lstrip s = s.
Proof.
  destruct s as [|c t]; simpl; [reflexivity|].
  intros H. apply andb_true_iff in H as [H _]. unfold non_space in H.
  destruct (is_space c); [discriminate|reflexivity].
Qed.

Lemma str_forall_rev_str (p : ascii -> bool) (s acc : string) :
  str_forall p (rev_str s acc) = str_forall p s && str_forall p acc.
Proof.
  revert acc; induction s as [|c t IH]; intros acc; simpl; [reflexivity|].
  rewrite IH. simpl. destruct (p c), (str_forall p t), (str_forall p acc); reflexivity.
Qed.

Lemma rev_str_rev_str (s acc b : string) :
  rev_str (rev_str s acc) b = rev_str acc (String.append s b).
Proof.
  revert acc; induction s as [|c t IH]; intros acc; simpl; [reflexivity|].
  rewrite IH. reflexivity.
Qed.

Lemma append_empty_r (s : string) : String.append s EmptyString = s.
Proof.
  induction s as [|c t IH]; [reflexivity|].
  change (String c (String.append t EmptyString) = String c t). rewrite IH. reflexivity.
Qed.

Lemma strip_non_space (s : string) :
  str_forall non_space s = true -> strip s = s.
Proof.
  intros H. unfold strip, rstrip. rewrite (lstrip_non_space s H).
  rewrite (lstrip_non_space (rev_str s EmptyString)).
  - rewrite rev_str_rev_str. simpl. apply append_empty_r.
  - rewrite str_forall_rev_str, H. reflexivity.
Qed.

Lemma take_short (n : nat) (s : string) :
  (String.length s <= n)%nat -> take n s = s.
Proof.
  unfold take. revert n; induction s as [|c t IH]; intros n Hn.
  - destruct n; reflexivity.
  - destruct n as [|n]; simpl in *; [lia|]. rewrite IH by lia. reflexivity.
Qed.

Lemma length_take (n : nat) (s : string) : (String.length (take n s) <= n)%nat.
Proof.
  unfold take. revert n; induction s as [|c t IH]; intros n.
  - destruct n; simpl; lia.
  - destruct n as [|n]; simpl; [lia|]. specialize (IH n). lia.
Qed.

Lemma generic_codes_shape :
  Forall (fun g => str_forall non_space g = true /\ (String.length g <= 100)%nat
                   /\ g <> EmptyString) generic_codes.
Proof. repeat constructor; (discriminate || lia). Qed.

(** A tracking value whose lower-cased form is generic passes [strip] and
    the truncation unchanged and is truthy. *)
Lemma generic_raw_normalized (r : string) :
  is_generic (lower r) = true ->
  truthy (Some r) = true /\ take 100 (strip r) = r.
Proof.
  intros H. unfold is_generic in H. apply existsb_exists in H as [g [Hin Heq]].
  apply String.eqb_eq in Heq.
  pose proof generic_codes_shape as Hs. rewrite List.Forall_forall in Hs.
  destruct (Hs g Hin) as [Hsp [Hlen Hne]]. subst g.
  split.
  - simpl. destruct (String.eqb r EmptyString) eqn:E; [|reflexivity].
    apply String.eqb_eq in E. subst r. exfalso. apply Hne. reflexivity.
  - rewrite str_forall_non_space_lower in Hsp. rewrite (strip_non_space r Hsp).
    apply take_short. rewrite length_lower in Hlen. exact Hlen.
Qed.

End PyFacts.

(** ** TokenRegistry *)

Module TokenFacts.
Import PyFacts.

Lemma lookup_token_some (ts : list invite_token) (e : Z) (v : string) (t : invite_token) :
  lookup_token ts e v = Some t -> In t ts /\ tok_event_id t = e /\ tok_value t = v.
Proof.
  unfold lookup_token. intros H. apply find_some in H as [Hin Hp].
  apply andb_true_iff in Hp as [H1 H2]. apply Z.eqb_eq in H1. apply String.eqb_eq in H2.
  auto.
Qed.

Lemma lookup_token_none (ts : list invite_token) (e : Z) (v : string) :
  lookup_token ts e v = None ->
  forall t, In t ts -> (tok_event_id t, tok_value t) <> (e, v).
Proof.
  unfold lookup_token. intros H t Hin Heq. injection Heq as He Hv. subst e v.
  pose proof (find_none _ _ H t Hin) as Hf. cbv beta in Hf.
  rewrite Z.eqb_refl, String.eqb_refl in Hf. discriminate.
Qed.

Lemma non_generic_not_default (v : string) :
  is_generic (lower v) = false -> String.eqb v "default" = false.
Proof.
  intros G. destruct (String.eqb v "default") eqn:E; [|reflexivity].
  apply String.eqb_eq in E. subst v. discriminate G.
Qed.

(** One call of [find_or_create_invite_token]: the row it returns, the
    lookup-before-insert, and the preservation of [tokens_wf]. *)
Lemma find_or_create_invite_token_step (d : db) (e : Z) (tl : option string) :
  tokens_wf (invitetokens d) ->
  let v := take 100 (strip (if truthy tl then default "" tl else "default")) in
  let value := if is_generic (lower v) then "default" else v in
  let category := if is_generic (lower v) then "mailing list" else "personal outreach" in
  let r := find_or_create_invite_token d e tl in
  tokens_wf (invitetokens r.2) /\
  (exists t, In t (invitetokens r.2) /\ tok_id t = r.1 /\ tok_event_id t = e /\
             tok_value t = value /\ tok_category t = category) /\
  (forall t, lookup_token (invitetokens d) e value = Some t -> r = (tok_id t, d)) /\
  (lookup_token (invitetokens d) e value = None ->
   r = (next_token_id d,
        mk_db (people d) (attendance d)
              (invitetokens d ++ [mk_token (next_token_id d) e category value])
              (events d) (next_person_id d) (next_token_id d + 1))).
Proof.
  intros [Huniq Hwf] v value category r.
  unfold r, find_or_create_invite_token. fold v.
  subst value category.
  destruct (is_generic (lower v)) eqn:G;
  destruct (lookup_token (invitetokens d) e _) as [t|] eqn:L; simpl.
  - (* generic, found *)
    apply lookup_token_some in L as Ht. destruct Ht as [Hin [He Hv]].
    split; [split; assumption|]. split; [|split; [intros t' Ht'; congruence|discriminate]].
    exists t. rewrite List.Forall_forall in Hwf. destruct (Hwf t Hin) as [_ Hc].
    rewrite Hv in Hc. simpl in Hc. auto.
  - (* generic, inserted *)
    split; [split|].
    + unfold tokens_unique. rewrite map_app. apply NoDup_app. split; [exact Huniq|].
      split; [|simpl; apply NoDup_singleton].
      intros x Hx Hx'. simpl in Hx'. apply list_elem_of_singleton in Hx'. subst x.
      apply list_elem_of_In, in_map_iff in Hx as [t [Hk Hin]].
      exact (lookup_token_none _ _ _ L t Hin Hk).
    + apply Forall_app. split; [exact Hwf|]. constructor; [|constructor].
      split; simpl; reflexivity.
    + split; [|split; [discriminate|reflexivity]].
      exists (mk_token (next_token_id d) e "mailing list" "default").
      split; [apply in_or_app; right; left; reflexivity|]. simpl. auto.
  - (* personal, found *)
    apply lookup_token_some in L as Ht. destruct Ht as [Hin [He Hv]].
    split; [split; assumption|]. split; [|split; [intros t' Ht'; congruence|discriminate]].
    exists t. rewrite List.Forall_forall in Hwf. destruct (Hwf t Hin) as [_ Hc].
    rewrite Hv, non_generic_not_default in Hc by exact G. auto.
  - (* personal, inserted *)
    split; [split|].
    + unfold tokens_unique. rewrite map_app. apply NoDup_app. split; [exact Huniq|].
      split; [|simpl; apply NoDup_singleton].
      intros x Hx Hx'. simpl in Hx'. apply list_elem_of_singleton in Hx'. subst x.
      apply list_elem_of_In, in_map_iff in Hx as [t [Hk Hin]].
      exact (lookup_token_none _ _ _ L t Hin Hk).
    + apply Forall_app. split; [exact Hwf|]. constructor; [|constructor].
      split; simpl.
      * intros H. rewrite G in H. discriminate.
      * rewrite non_generic_not_default by exact G. reflexivity.
    + split; [|split; [discriminate|reflexivity]].
      exists (mk_token (next_token_id d) e "personal outreach" v).
      split; [apply in_or_app; right; left; reflexivity|]. simpl. auto.
Qed.

Lemma run_token_calls_wf (d : db) (calls : list (Z * option string)) :
  tokens_wf (invitetokens d) -> tokens_wf (invitetokens (run_token_calls d calls)).
Proof.
  revert d; induction calls as [|[e tl] rest IH]; intros d H; simpl; [exact H|].
  apply IH. apply (find_or_create_invite_token_step d e tl H).
Qed.

End TokenFacts.

(** ** Claims about the TokenRegistry *)

Import PyFacts TokenFacts.

(** C9: [find_or_create_invite_token] turns an absent value into the
    sentinel "default", strips and truncates it to 100 characters, gives
    category "mailing list" exactly when the lower-cased value is one of
    [generic_codes] and "personal outreach" otherwise, returns the existing
    row for [(event_id, value)] when there is one, and any sequence of calls
    keeps [(event_id, value)] unique in [invitetokens]. *)
Theorem invite_token_registry (d : db) (event_id : Z) (tracking_link : option string) :
  tokens_wf (invitetokens d) ->
  let v := take 100 (strip (if truthy tracking_link then default "" tracking_link
                            else "default")) in
  let value := if is_generic (lower v) then "default" else v in
  let r := find_or_create_invite_token d event_id tracking_link in
  (truthy tracking_link = false -> value = "default") /\
  (String.length value <= 100)%nat /\
  (exists t, In t (invitetokens r.2) /\ tok_id t = r.1 /\
             tok_event_id t = event_id /\ tok_value t = value /\
             (tok_category t = "mailing list" <-> is_generic (lower v) = true) /\
             (tok_category t = "personal outreach" <-> is_generic (lower v) = false)) /\
  (forall t, lookup_token (invitetokens d) event_id value = Some t -> r = (tok_id t, d)) /\
  (forall calls, tokens_unique (invitetokens (run_token_calls d calls))).
Proof.
  intros Hwf v value r.
  destruct (find_or_create_invite_token_step d event_id tracking_link Hwf)
    as [_ [[t [Hin [Hid [He [Hv Hc]]]]] [Hfound _]]].
  fold v value r in Hin, Hid, Hv, Hc, Hfound.
  split; [|split; [|split; [|split]]].
  - intros Ht. subst value v. rewrite Ht. reflexivity.
  - subst value. destruct (is_generic (lower v)); [simpl; lia|apply length_take].
  - exists t. repeat (split; [assumption|]).
    rewrite Hc. destruct (is_generic (lower v)); repeat split; intros Hx; (reflexivity || discriminate Hx).
  - exact Hfound.
  - intros calls. apply run_token_calls_wf, Hwf.
Qed.

Lemma invite_token_registry_witness :
  tokens_wf (invitetokens empty_db) /\
  (let v := take 100 (strip (if truthy (Some "Email") then default "" (Some "Email")
                             else "default")) in
   let value := if is_generic (lower v) then "default" else v in
   let r := find_or_create_invite_token empty_db 7 (Some "Email") in
   (truthy (Some "Email") = false -> value = "default") /\
   (String.length value <= 100)%nat /\
   (exists t, In t (invitetokens r.2) /\ tok_id t = r.1 /\
              tok_event_id t = 7 /\ tok_value t = value /\
              (tok_category t = "mailing list" <-> is_generic (lower v) = true) /\
              (tok_category t = "personal outreach" <-> is_generic (lower v) = false)) /\
   (forall t, lookup_token (invitetokens empty_db) 7 value = Some t -> r = (tok_id t, empty_db)) /\
   (forall calls, tokens_unique (invitetokens (run_token_calls empty_db calls)))).
Proof.
  assert (H : tokens_wf (invitetokens empty_db))
    by (unfold tokens_wf, tokens_unique; simpl; split; constructor).
  split; [exact H|]. exact (invite_token_registry empty_db 7 (Some "Email") H).
Defined.

(** C10: two tracking values whose lower-cased forms are generic resolve,
    for one event, to the same token row, whose value is "default" and
    category "mailing list"; and no stored token value other than
    "default" has a generic lower-cased form. *)
Theorem generic_codes_share_default_token (d : db) (event_id : Z) (r1 r2 : string) :
  tokens_wf (invitetokens d) ->
  is_generic (lower r1) = true -> is_generic (lower r2) = true ->
  let p1 := find_or_create_invite_token d event_id (Some r1) in
  let p2 := find_or_create_invite_token p1.2 event_id (Some r2) in
  p2 = (p1.1, p1.2) /\
  (exists t, In t (invitetokens p1.2) /\ tok_id t = p1.1 /\ tok_event_id t = event_id /\
             tok_value t = "default" /\ tok_category t = "mailing list") /\
  (forall calls t, In t (invitetokens (run_token_calls d calls)) ->
                   is_generic (lower (tok_value t)) = true -> tok_value t = "default").
Proof.
  intros Hwf G1 G2 p1 p2.
  destruct (generic_raw_normalized r1 G1) as [T1 N1].
  destruct (generic_raw_normalized r2 G2) as [T2 N2].
  destruct (find_or_create_invite_token_step d event_id (Some r1) Hwf)
    as [Hwf1 [[t [Hin [Hid [He [Hv Hc]]]]] _]].
  rewrite T1 in Hv, Hc. simpl default in Hv, Hc. rewrite N1, G1 in Hv, Hc.
  fold p1 in Hwf1, Hin, Hid.
  split; [|split].
  - destruct (find_or_create_invite_token_step p1.2 event_id (Some r2) Hwf1)
      as [_ [_ [Hfound _]]].
    rewrite T2 in Hfound. simpl default in Hfound. rewrite N2, G2 in Hfound.
    (* the first row with key (event_id, "default") is the one of p1 *)
    destruct (lookup_token (invitetokens p1.2) event_id "default") as [t'|] eqn:L.
    + unfold p2. rewrite (Hfound t' eq_refl). f_equal.
      apply lookup_token_some in L as [Hin' [He' Hv']].
      destruct Hwf1 as [Huniq _].
      assert (Ht : t = t').
      { (* both rows carry the key (event_id, "default") *)
        clear -Huniq Hin Hin' He He' Hv Hv'.
        induction (invitetokens p1.2) as [|x xs IH]; [destruct Hin|].
        simpl in Huniq. apply NoDup_cons in Huniq as [Hnot Huniq].
        destruct Hin as [<-|Hin]; destruct Hin' as [<-|Hin'].
        - reflexivity.
        - exfalso. apply Hnot. apply list_elem_of_In, in_map_iff.
          exists t'. split; [congruence|exact Hin'].
        - exfalso. apply Hnot. apply list_elem_of_In, in_map_iff.
          exists t. split; [congruence|exact Hin].
        - apply IH; assumption. }
      subst t'. exact Hid.
    + exfalso. apply (lookup_token_none _ _ _ L t Hin). congruence.
  - exists t. auto.
  - intros calls t0 Hin0 G0.
    destruct (run_token_calls_wf d calls Hwf) as [_ Hall].
    rewrite List.Forall_forall in Hall. exact (proj1 (Hall t0 Hin0) G0).
Qed.

Lemma generic_codes_share_default_token_witness :
  tokens_wf (invitetokens empty_db) /\
  is_generic (lower "EMAIL") = true /\ is_generic (lower "instagram") = true /\
  (let p1 := find_or_create_invite_token empty_db 7 (Some "EMAIL") in
   let p2 := find_or_create_invite_token p1.2 7 (Some "instagram") in
   p2 = (p1.1, p1.2) /\
   (exists t, In t (invitetokens p1.2) /\ tok_id t = p1.1 /\ tok_event_id t = 7 /\
              tok_value t = "default" /\ tok_category t = "mailing list") /\
   (forall calls t, In t (invitetokens (run_token_calls empty_db calls)) ->
                    is_generic (lower (tok_value t)) = true -> tok_value t = "default")).
Proof.
  assert (H : tokens_wf (invitetokens empty_db))
    by (unfold tokens_wf, tokens_unique; simpl; split; constructor).
  split; [exact H|]. split; [reflexivity|]. split; [reflexivity|].
  exact (generic_codes_share_default_token empty_db 7 "EMAIL" "instagram" H
           eq_refl eq_refl).
Defined.

(** ** Claims about the Normalizer *)


(** C5 (counterexample): an email field holding both a Harvard and an MIT
    address contains "@mit.edu", yet the Harvard domain is tested first and
    the result is [Harvard], not [MIT]. *)
Lemma normalize_school_mit_email_counterexample :
  contains "@mit.edu" (lower "jane@harvard.edu; jane@mit.edu") = true /\
  normalize_school (Some "Harvard Business School") (Some "jane@harvard.edu; jane@mit.edu")
    = Some Harvard.
Proof. split; reflexivity. Qed.

(** C5 (amended): an email containing "@mit.edu" but neither
    "@harvard.edu" nor "@college.harvard.edu" (all case-insensitively)
    gives [MIT] whatever the free text; an email containing "@harvard.edu"
    or "@college.harvard.edu" gives [Harvard] whatever the free text, even
    when it also contains "@mit.edu"; when no email check applies, free
    text containing "harvard" with "business" or "hbs" gives [Other]. *)
Theorem normalize_school_email_precedence :
  (forall (school_str : option string) (e : string),
     contains "@mit.edu" (lower e) = true ->
     contains "@harvard.edu" (lower e) = false ->
     contains "@college.harvard.edu" (lower e) = false ->
     normalize_school school_str (Some e) = Some MIT) /\
  (forall (school_str : option string) (e : string),
     (contains "@harvard.edu" (lower e) || contains "@college.harvard.edu" (lower e)) = true ->
     normalize_school school_str (Some e) = Some Harvard) /\
  (forall (s : string) (email_str : option string),
     email_applies email_str = false ->
     contains "harvard" (lower s) = true ->
     (contains "business" (lower s) || contains "hbs" (lower s)) = true ->
     normalize_school (Some s) email_str = Some Other).
Proof.
  split; [|split].
  - intros school_str e Hm Hh Hc. unfold normalize_school.
    assert (Ht : truthy (Some e) = true).
    { simpl. destruct (String.eqb e "") eqn:E; [|reflexivity].
      apply String.eqb_eq in E. subst e. discriminate Hm. }
    rewrite Ht. simpl default. rewrite Hh, Hc, Hm. reflexivity.
  - intros school_str e Hh. unfold normalize_school.
    assert (Ht : truthy (Some e) = true).
    { simpl. destruct (String.eqb e "") eqn:E; [|reflexivity].
      apply String.eqb_eq in E. subst e. discriminate Hh. }
    rewrite Ht. simpl default. rewrite Hh. reflexivity.
  - intros s email_str Ha Hh Hb. unfold normalize_school.
    unfold email_applies in Ha.
    destruct (truthy email_str) eqn:Ht; simpl in Ha.
    + apply orb_false_iff in Ha as [Ha Hedu].
      apply orb_false_iff in Ha as [Ha Hmit].
      apply orb_false_iff in Ha as [Hhv Hcol].
      rewrite Hhv, Hcol, Hmit, Hedu. simpl. rewrite Hh.
      destruct (contains "business" (lower s)), (contains "hbs" (lower s));
        simpl in *; (reflexivity || discriminate).
    + rewrite Hh.
      destruct (contains "business" (lower s)), (contains "hbs" (lower s));
        simpl in *; (reflexivity || discriminate).
Qed.

Lemma normalize_school_email_precedence_witness :
  normalize_school (Some "Harvard Business School") (Some "a@MIT.EDU") = Some MIT /\
  normalize_school (Some "MIT") (Some "jane@harvard.edu; jane@mit.edu") = Some Harvard /\
  normalize_school (Some "Harvard Business School") None = Some Other.
Proof.
  split; [|split].
  - apply (proj1 normalize_school_email_precedence); reflexivity.
  - apply (proj1 (proj2 normalize_school_email_precedence)); reflexivity.
  - apply (proj2 (proj2 normalize_school_email_precedence)); reflexivity.
Defined.

Module ClassYearFacts.

Lemma lower_char_digit (c : ascii) : is_digit c = true -> lower_char c = c.
Proof.
  unfold is_digit, lower_char. intros H. apply andb_prop in H as [H1 H2].
  apply Nat.leb_le in H1, H2.
  destruct ((65 <=? nat_of_ascii c)%nat) eqn:E; [apply Nat.leb_le in E; lia|reflexivity].
Qed.

Lemma lower_digits (s : string) : all_digits s = true -> lower s = s.
Proof.
  induction s as [|c t IH]; simpl; [reflexivity|].
  intros H. apply andb_prop in H as [Hc Ht]. rewrite lower_char_digit by exact Hc.
  rewrite IH by exact Ht. reflexivity.
Qed.

Lemma digits_non_space (s : string) : all_digits s = true -> str_forall non_space s = true.
Proof.
  induction s as [|c t IH]; simpl; [reflexivity|].
  intros H. apply andb_prop in H as [Hc Ht]. rewrite IH by exact Ht.
  unfold is_digit in Hc. apply andb_prop in Hc as [H1 H2]. apply Nat.leb_le in H1, H2.
  unfold non_space, is_space.
  destruct ((9 <=? nat_of_ascii c)%nat && (nat_of_ascii c <=? 13)%nat) eqn:E1.
  - apply andb_prop in E1 as [_ E1]. apply Nat.leb_le in E1. lia.
  - destruct ((28 <=? nat_of_ascii c)%nat && (nat_of_ascii c <=? 32)%nat) eqn:E2.
    + apply andb_prop in E2 as [_ E2]. apply Nat.leb_le in E2. lia.
    + reflexivity.
Qed.

End ClassYearFacts.

(** C8 (failing input): the source comment reads "Try 2-digit with
    apostrophe (e.g., '27)", but the code only checks that what follows the
    apostrophe is digits, of any number.  So "'2027", which is neither a
    bare 4-digit year nor an apostrophe with a 2-digit year and contains no
    grade-level keyword (ordinal or not), resolves to 2000 + 2027 = 4027
    instead of unknown, whatever the current date. *)
Theorem normalize_class_year_apostrophe_any_digits (now_year now_month : Z) :
  (forall rest, isdigit rest = true ->
     normalize_class_year now_year now_month (Some (String "'" rest))
     = Some (2000 + int_of_digits rest)) /\
  String.length "2027" = 4%nat /\
  any_in ["freshman"; "first"; "1st"; "sophomore"; "second"; "2nd";
          "junior"; "third"; "3rd"; "senior"; "fourth"; "4th"] "'2027" = false /\
  normalize_class_year now_year now_month (Some "'2027") = Some 4027.
Proof.
  split; [|split; [reflexivity|split; [reflexivity|]]].
  - intros rest H. unfold normalize_class_year.
    assert (Hd : all_digits rest = true).
    { unfold isdigit in H. apply andb_prop in H as [_ H]. exact H. }
    assert (Hs : strip (lower (String "'" rest)) = String "'" rest).
    { simpl lower. rewrite ClassYearFacts.lower_digits by exact Hd.
      apply strip_non_space. simpl. apply ClassYearFacts.digits_non_space. exact Hd. }
    assert (Hp : String.prefix "" rest = true) by (destruct rest; reflexivity).
    rewrite Hs. simpl. rewrite Hp, H. reflexivity.
  - unfold normalize_class_year. vm_compute. reflexivity.
Qed.

Lemma normalize_class_year_apostrophe_any_digits_witness :
  isdigit "5" = true /\ normalize_class_year 2025 10 (Some "'5") = Some 2005.
Proof.
  split; [reflexivity|].
  apply (proj1 (normalize_class_year_apostrophe_any_digits 2025 10) "5"). reflexivity.
Defined.

(** ** Claims about the PersonStore *)

(** C6: [update_contact_info] on an existing person fills each of
    [school_email], [personal_email], [phone_number] from the row only when
    it is [NULL], keeps every present value and every other column and
    person, and reports [true] exactly when some field goes from [NULL] to a
    non-[NULL] incoming value. *)
Theorem contact_merge_non_destructive (d : db) (person_id : Z) (rd : row_data) (cur : person) :
  people d !! person_id = Some cur ->
  let r := update_contact_info d person_id rd in
  (exists x, people r.1 !! person_id = Some x /\
     school_email x = coalesce (school_email cur) (rd_school_email rd) /\
     personal_email x = coalesce (personal_email cur) (rd_personal_email rd) /\
     phone_number x = coalesce (phone_number cur) (rd_phone rd) /\
     (forall v, school_email cur = Some v -> school_email x = Some v) /\
     (forall v, personal_email cur = Some v -> personal_email x = Some v) /\
     (forall v, phone_number cur = Some v -> phone_number x = Some v) /\
     first_name x = first_name cur /\ last_name x = last_name cur /\
     gender x = gender cur /\ class_year x = class_year cur /\ school x = school cur /\
     preferred_name x = preferred_name cur /\ referral_count x = referral_count cur /\
     event_attendance_count x = event_attendance_count cur) /\
  (forall q, q <> person_id -> people r.1 !! q = people d !! q) /\
  attendance r.1 = attendance d /\ invitetokens r.1 = invitetokens d /\
  (r.2 = true <->
     (school_email cur = None /\ rd_school_email rd <> None) \/
     (personal_email cur = None /\ rd_personal_email rd <> None) \/
     (phone_number cur = None /\ rd_phone rd <> None)).
Proof.
  intros Hcur r. subst r. unfold update_contact_info. rewrite Hcur. simpl.
  split; [|split; [|split; [reflexivity|split; [reflexivity|]]]].
  - eexists. rewrite lookup_insert_eq. split; [reflexivity|]. simpl.
    repeat split;
      try (intros v Hv; unfold coalesce; rewrite Hv; reflexivity).
  - intros q Hq. rewrite lookup_insert_ne by congruence. reflexivity.
  - destruct (school_email cur), (rd_school_email rd), (personal_email cur),
      (rd_personal_email rd), (phone_number cur), (rd_phone rd); simpl;
      split; intros H;
      repeat match goal with
             | H : _ \/ _ |- _ => destruct H
             | H : _ /\ _ |- _ => destruct H
             end;
      try discriminate; try congruence;
      try (left; split; [reflexivity|discriminate]);
      try (right; left; split; [reflexivity|discriminate]);
      try (right; right; split; [reflexivity|discriminate]);
      try reflexivity.
Qed.

Lemma contact_merge_non_destructive_witness :
  let cur := mk_person (Some "Ana") (Some "Li") None None None None None
               (Some "ana@old.com") None 0 0 in
  let d := set_people empty_db {[ 1 := cur ]} in
  let rd := mk_row_data (Some "Ana") (Some "Li") (Some "ana@mit.edu") (Some "ana@new.com")
              None None None None in
  people d !! 1 = Some cur /\
  (let r := update_contact_info d 1 rd in
   (exists x, people r.1 !! 1 = Some x /\
     school_email x = coalesce (school_email cur) (rd_school_email rd) /\
     personal_email x = coalesce (personal_email cur) (rd_personal_email rd) /\
     phone_number x = coalesce (phone_number cur) (rd_phone rd) /\
     (forall v, school_email cur = Some v -> school_email x = Some v) /\
     (forall v, personal_email cur = Some v -> personal_email x = Some v) /\
     (forall v, phone_number cur = Some v -> phone_number x = Some v) /\
     first_name x = first_name cur /\ last_name x = last_name cur /\
     gender x = gender cur /\ class_year x = class_year cur /\ school x = school cur /\
     preferred_name x = preferred_name cur /\ referral_count x = referral_count cur /\
     event_attendance_count x = event_attendance_count cur) /\
   (forall q, q <> 1 -> people r.1 !! q = people d !! q) /\
   attendance r.1 = attendance d /\ invitetokens r.1 = invitetokens d /\
   (r.2 = true <->
      (school_email cur = None /\ rd_school_email rd <> None) \/
      (personal_email cur = None /\ rd_personal_email rd <> None) \/
      (phone_number cur = None /\ rd_phone rd <> None))).
Proof.
  intros cur d rd.
  assert (H : people d !! 1 = Some cur) by reflexivity.
  split; [exact H|]. exact (contact_merge_non_destructive d 1 rd cur H).
Defined.

(** ** Claims about the ReferralAttributor *)

Module ReferralFacts.

(** [fuzzy_match_name] with an empty last name returns [None] before it
    reads any person. *)
Lemma fuzzy_match_name_empty_last (ps : gmap Z person) (fname : option string) :
  fuzzy_match_name ps fname (Some "") = Ok None.
Proof. unfold fuzzy_match_name. simpl. rewrite orb_true_r. reflexivity. Qed.

(** The referrer of a row is the tracking-link match; the referral column
    never changes it. *)
Lemma resolve_referrer_tracking_only (ps : gmap Z person) (tl ref : option string) :
  resolve_referrer ps tl ref =
  Ok (if truthy tl then match_tracking_link_to_person ps tl else None).
Proof.
  unfold resolve_referrer. destruct ref as [v|]; [|reflexivity].
  rewrite fuzzy_match_name_empty_last. reflexivity.
Qed.

End ReferralFacts.

Import ReferralFacts.

(** C7: the referral block of a row resolves a referrer and changes only
    [people]; a person's row is incremented exactly when the row is checked
    in and the (truthy) referrer is that person and differs from the
    attendee, and the increment adds exactly 1 to [referral_count] and
    nothing else; when the referrer is the attendee, [people] is
    unchanged. *)
Theorem referral_credit_excludes_self (d : db) (ci : bool) (tl ref : option string)
  (person_id : Z) :
  exists referrer d',
    resolve_referrer (people d) tl ref = Ok referrer /\
    referral_step d ci tl ref person_id = Ok d' /\
    attendance d' = attendance d /\ invitetokens d' = invitetokens d /\
    events d' = events d /\
    (forall q, people d' !! q =
       if ci && id_truthy referrer && bool_decide (referrer = Some q) && negb (q =? person_id)
       then incr_referral <$> people d !! q else people d !! q) /\
    (forall x, referral_count (incr_referral x) = referral_count x + 1 /\
               incr_referral x = mk_person (first_name x) (last_name x) (gender x)
                 (class_year x) (school x) (preferred_name x) (school_email x)
                 (personal_email x) (phone_number x) (referral_count x + 1)
                 (event_attendance_count x)) /\
    (referrer = Some person_id -> people d' = people d).
Proof.
  set (R := if truthy tl then match_tracking_link_to_person (people d) tl else None).
  assert (HR : resolve_referrer (people d) tl ref = Ok R)
    by apply resolve_referrer_tracking_only.
  assert (Hq : forall q, people (set_people d (credit_referral (people d) R person_id)) !! q =
     if id_truthy R && bool_decide (R = Some q) && negb (q =? person_id)
     then incr_referral <$> people d !! q else people d !! q).
  { intros q. simpl. unfold credit_referral.
    destruct R as [r|]; [|reflexivity].
    destruct (id_truthy (Some r)) eqn:T; simpl; [|reflexivity].
    destruct (r =? person_id) eqn:E; simpl.
    - destruct (bool_decide (Some r = Some q)) eqn:B; simpl; [|reflexivity].
      apply bool_decide_eq_true in B. injection B as <-. rewrite E. reflexivity.
    - destruct (bool_decide (Some r = Some q)) eqn:B; simpl.
      + apply bool_decide_eq_true in B. injection B as <-. rewrite E.
        apply lookup_alter_eq.
      + apply bool_decide_eq_false in B.
        destruct (q =? person_id); apply lookup_alter_ne; congruence. }
  exists R.
  exists (if ci then set_people d (credit_referral (people d) R person_id) else d).
  split; [exact HR|].
  split; [unfold referral_step; destruct ci; [rewrite HR|]; reflexivity|].
  split; [destruct ci; reflexivity|].
  split; [destruct ci; reflexivity|].
  split; [destruct ci; reflexivity|].
  split; [intros q; destruct ci; [apply Hq|reflexivity]|].
  split; [intros x; split; reflexivity|].
  intros Hself. destruct ci; [|reflexivity].
  apply map_eq. intros q. rewrite Hq. rewrite Hself.
  destruct (bool_decide (Some person_id = Some q)) eqn:B;
    [|rewrite !andb_false_r; reflexivity].
  apply bool_decide_eq_true in B. injection B as <-. rewrite Z.eqb_refl, andb_false_r.
  reflexivity.
Qed.


(** C4 (failing input): a checked-in row with no tracking link whose
    referral column names "Alice Smith", in an event where Alice Smith is
    person 1 (Bob is created as person 2): the referral column value goes to
    [fuzzy_match_name] with last name [""], which returns [None] at once, so
    no referrer is found and Alice's record, with [referral_count] 0, is left
    as it was; in general the referral column never
    affects the referrer. *)
Theorem referral_column_never_credits :
  (forall (ps : gmap Z person) (tl ref : option string),
     resolve_referrer ps tl ref =
     Ok (if truthy tl then match_tracking_link_to_person ps tl else None)) /\
  fuzzy_match_name (people referral_db) (Some "Alice") (Some "Smith") = Ok (Some 1) /\
  (exists d', process_event_csv (mk_env 2025 10 (fun _ => None)) 7 referral_db [referred_row]
              = Ok d' /\
              first_name <$> people d' !! 2 = Some (Some "Bob") /\
              people d' !! 1 = Some alice /\ referral_count alice = 0).
Proof.
  split; [exact resolve_referrer_tracking_only|].
  split; [vm_compute; reflexivity|].
  eexists. split; [vm_compute; reflexivity|]. vm_compute. auto.
Qed.

(** ** Claims about fuzzy name matching *)

(** C3 (failing input): "Jon Smith" against John Smith (average ratio
    (6/7 + 1)/2 = 13/14, above 0.90) is accepted when the table holds only
    John Smith; once the table also holds a person with [NULL] names,
    created by an earlier row that gives an email and no names,
    [db_first.lower()] raises [AttributeError] for that person, so no match
    is returned whatever the averages, and the whole import of the event
    fails. *)
Theorem fuzzy_match_name_null_name_raises :
  fuzzy_match_name (people john_db) (Some "Jon") (Some "Smith") = Ok (Some 2) /\
  (exists e, fuzzy_match_name
               (<[3 := mk_person None None None None None None None
                         (Some "guest@example.com") None 0 0]> (people john_db))
               (Some "Jon") (Some "Smith") = Raise e) /\
  (exists e, process_event_csv (mk_env 2025 10 (fun _ => None)) 7 john_db
               [nameless_row; jon_row] = Raise e).
Proof.
  split; [vm_compute; reflexivity|].
  split; eexists; vm_compute; reflexivity.
Qed.

(** On a people table whose names are all present, the thresholds of
    [fuzzy_match_name] behave as documented: the shortlist holds exactly the
    people whose average ratio is at least 0.80, and a match is returned
    exactly when the largest shortlisted average is at least 0.90, the
    match being a person with that average. *)
Module FuzzyFacts.

Lemma elem_here {A} (x : A) (l : list A) : x ∈ x :: l.
Proof. apply elem_of_cons. left. reflexivity. Qed.

Lemma insert_desc_perm (x : Z * Q) (l : list (Z * Q)) : insert_desc x l ≡ₚ x :: l.
Proof.
  induction l as [|y l IH]; simpl; [reflexivity|].
  destruct (Qle_bool (snd x) (snd y)); [|reflexivity].
  rewrite IH. constructor.
Qed.

Lemma sort_desc_perm (l : list (Z * Q)) : sort_desc l ≡ₚ l.
Proof.
  unfold sort_desc.
  assert (G : forall acc, fold_left (fun acc x => insert_desc x acc) l acc ≡ₚ l ++ acc).
  { induction l as [|x l IH]; intros acc; simpl; [reflexivity|].
    rewrite IH, insert_desc_perm. symmetry. apply Permutation_middle. }
  rewrite G, app_nil_r. reflexivity.
Qed.

Lemma insert_desc_head_max (x : Z * Q) (l : list (Z * Q)) :
  head_max l -> head_max (insert_desc x l).
Proof.
  intros Hl. destruct l as [|h0 t0]; simpl.
  - intros h t [= <- <-] y Hy. inversion Hy.
  - destruct (Qle_bool (snd x) (snd h0)) eqn:E.
    + intros h t [= <- <-] y Hy.
      rewrite (insert_desc_perm x t0) in Hy.
      apply elem_of_cons in Hy as [->|Hy].
      * apply Qle_bool_iff. exact E.
      * exact (Hl h0 t0 eq_refl y Hy).
    + intros h t [= <- <-] y Hy.
      assert (Hlt : (snd h0 < snd x)%Q).
      { apply Qnot_le_lt. intros C. apply Qle_bool_iff in C. congruence. }
      apply elem_of_cons in Hy as [->|Hy].
      * apply Qlt_le_weak. exact Hlt.
      * eapply Qle_trans; [exact (Hl h0 t0 eq_refl y Hy)|]. apply Qlt_le_weak. exact Hlt.
Qed.

Lemma sort_desc_head_max (l : list (Z * Q)) : head_max (sort_desc l).
Proof.
  unfold sort_desc.
  assert (G : forall acc, head_max acc ->
                head_max (fold_left (fun acc x => insert_desc x acc) l acc)).
  { induction l as [|x l IH]; intros acc Hacc; simpl; [exact Hacc|].
    apply IH, insert_desc_head_max, Hacc. }
  apply G. intros h t C. discriminate C.
Qed.

Lemma shortlist_spec (f l : string) (rows : list (Z * person)) :
  (forall i x, (i, x) ∈ rows -> is_Some (first_name x) /\ is_Some (last_name x)) ->
  exists ms, shortlist f l rows = Ok ms /\
    forall i a, (i, a) ∈ ms <->
      exists x, (i, x) ∈ rows /\ candidate_ratio f l x = Ok a /\
                (FUZZY_MATCH_THRESHOLD <= a)%Q.
Proof.
  induction rows as [|[i x] rows IH]; intros Hn.
  - exists []. split; [reflexivity|]. intros j a. split.
    + intros H. inversion H.
    + intros (y & Hy & _). inversion Hy.
  - destruct IH as [ms [Hms Hiff]].
    { intros j y Hy. apply (Hn j y). apply elem_of_cons. right. exact Hy. }
    destruct (Hn i x (elem_here _ _)) as [[fx Hf] [lx Hl]].
    set (avg := ((Difflib.ratio f (lower fx) + Difflib.ratio l (lower lx)) / 2)%Q).
    assert (Hc : candidate_ratio f l x = Ok avg).
    { unfold candidate_ratio. rewrite Hf, Hl. reflexivity. }
    exists (if Qle_bool FUZZY_MATCH_THRESHOLD avg then (i, avg) :: ms else ms).
    split.
    { simpl. rewrite Hc. simpl. rewrite Hms. reflexivity. }
    intros j a. split.
    + intros Hja. destruct (Qle_bool FUZZY_MATCH_THRESHOLD avg) eqn:E.
      * apply elem_of_cons in Hja as [Hja|Hja].
        -- injection Hja as -> ->. exists x.
           split; [apply elem_here|]. split; [exact Hc|].
           apply Qle_bool_iff. exact E.
        -- apply Hiff in Hja as (y & Hy & Hr & Ht). exists y.
           split; [apply elem_of_cons; right; exact Hy|]. split; [exact Hr|exact Ht].
      * apply Hiff in Hja as (y & Hy & Hr & Ht). exists y.
        split; [apply elem_of_cons; right; exact Hy|]. split; [exact Hr|exact Ht].
    + intros (y & Hy & Hr & Ht). apply elem_of_cons in Hy as [Hy|Hy].
      * injection Hy as -> ->. rewrite Hc in Hr. injection Hr as <-.
        apply Qle_bool_iff in Ht. rewrite Ht. apply elem_here.
      * assert (Hm : (j, a) ∈ ms) by (apply Hiff; exists y; auto).
        destruct (Qle_bool FUZZY_MATCH_THRESHOLD avg);
          [apply elem_of_cons; right|]; exact Hm.
Qed.

Lemma fuzzy_match_name_thresholds (ps : gmap Z person) (fname lname : option string) :
  truthy fname = true -> truthy lname = true ->
  (forall i x, ps !! i = Some x -> is_Some (first_name x) /\ is_Some (last_name x)) ->
  let f := lower (title (strip (default "" fname))) in
  let l := lower (title (strip (default "" lname))) in
  exists ms,
    shortlist f l (map_to_list ps) = Ok ms /\
    (forall i a, (i, a) ∈ ms <->
       exists x, ps !! i = Some x /\ candidate_ratio f l x = Ok a /\ (80 # 100 <= a)%Q) /\
    ((fuzzy_match_name ps fname lname = Ok None /\
      forall i a, (i, a) ∈ ms -> (a < 90 # 100)%Q) \/
     (exists i a, fuzzy_match_name ps fname lname = Ok (Some i) /\ (i, a) ∈ ms /\
                  (90 # 100 <= a)%Q /\ forall j b, (j, b) ∈ ms -> (b <= a)%Q)).
Proof.
  intros Hf Hl Hn f l.
  destruct (shortlist_spec f l (map_to_list ps)) as [ms [Hms Hiff]].
  { intros i x Hx. apply elem_of_map_to_list in Hx. exact (Hn i x Hx). }
  exists ms. split; [exact Hms|]. split.
  { intros i a. rewrite Hiff. split.
    - intros (x & Hx & Hr & Ht). apply elem_of_map_to_list in Hx. eauto.
    - intros (x & Hx & Hr & Ht). exists x. rewrite elem_of_map_to_list. auto. }
  unfold fuzzy_match_name. rewrite Hf, Hl. simpl negb. simpl orb.
  fold f l. rewrite Hms. simpl.
  pose proof (sort_desc_perm ms) as Hp.
  pose proof (sort_desc_head_max ms) as Hmax.
  destruct (sort_desc ms) as [|[bi ba] t] eqn:S.
  - left. split; [reflexivity|].
    intros i a Ha. rewrite <- Hp in Ha. inversion Ha.
  - assert (Hall : forall j b, (j, b) ∈ ms -> (b <= ba)%Q).
    { intros j b Hjb. rewrite <- Hp in Hjb. apply elem_of_cons in Hjb as [Hjb|Hjb].
      - injection Hjb as -> ->. apply Qle_refl.
      - exact (Hmax _ _ eq_refl _ Hjb). }
    assert (Hin : (bi, ba) ∈ ms) by (rewrite <- Hp; apply elem_here).
    simpl. destruct (Qle_bool (90 # 100) ba) eqn:E.
    + right. exists bi, ba. split; [reflexivity|]. split; [exact Hin|].
      split; [apply Qle_bool_iff; exact E|exact Hall].
    + left. split; [reflexivity|]. intros i a Ha.
      eapply Qle_lt_trans; [exact (Hall i a Ha)|].
      apply Qnot_le_lt. intros C. apply Qle_bool_iff in C. congruence.
Qed.

End FuzzyFacts.

(** ** Claims about attendance records *)

Module AttendanceFacts.

Lemma earliest_spec (cands : list (Z * Z)) (best : option (Z * Z)) (r : Z * Z) :
  earliest best cands = Some r ->
  (best = Some r \/ r ∈ cands) /\
  (forall b, best = Some b -> r.2 <= b.2) /\
  (forall c, c ∈ cands -> r.2 <= c.2).
Proof.
  revert best. induction cands as [|[e t] rest IH]; intros best H; simpl in H.
  - subst best. split; [left; reflexivity|]. split.
    + intros b [= ->]. lia.
    + intros c Hc. inversion Hc.
  - destruct best as [[eb tb]|].
    + destruct (t <? tb) eqn:Lt.
      * apply Z.ltb_lt in Lt.
        destruct (IH _ H) as [Hin [Hb Hc]].
        split; [|split].
        -- right. destruct Hin as [[= <-]|Hin]; apply elem_of_cons; [left|right]; auto.
        -- intros b [= <-]. specialize (Hb _ eq_refl). simpl in *. lia.
        -- intros c Hc'. apply elem_of_cons in Hc' as [->|Hc'].
           ++ exact (Hb _ eq_refl).
           ++ exact (Hc c Hc').
      * apply Z.ltb_ge in Lt.
        destruct (IH _ H) as [Hin [Hb Hc]].
        split; [|split].
        -- destruct Hin as [Hin|Hin]; [left; exact Hin|right; apply elem_of_cons; right; exact Hin].
        -- exact Hb.
        -- intros c Hc'. apply elem_of_cons in Hc' as [->|Hc'].
           ++ specialize (Hb _ eq_refl). simpl in *. lia.
           ++ exact (Hc c Hc').
    + destruct (IH _ H) as [Hin [Hb Hc]].
      split; [|split].
      * right. destruct Hin as [[= <-]|Hin]; apply elem_of_cons; [left|right]; auto.
      * intros b Hb'. discriminate Hb'.
      * intros c Hc'. apply elem_of_cons in Hc' as [->|Hc'].
        -- exact (Hb _ eq_refl).
        -- exact (Hc c Hc').
Qed.

Lemma earliest_some_best (cands : list (Z * Z)) (b : Z * Z) :
  earliest (Some b) cands <> None.
Proof.
  revert b. induction cands as [|[e t] rest IH]; intros [eb tb]; simpl.
  - discriminate.
  - destruct (t <? tb); apply IH.
Qed.

Lemma earliest_nonempty (cands : list (Z * Z)) (c : Z * Z) :
  c ∈ cands -> earliest None cands <> None.
Proof.
  destruct cands as [|[e t] rest]; intros Hc.
  - inversion Hc.
  - simpl. apply earliest_some_best.
Qed.

Lemma checked_in_events_spec (d : db) (pid e t : Z) :
  (e, t) ∈ checked_in_events d pid <->
  exists r ev, attendance d !! (pid, e) = Some r /\ checked_in r = true /\
               events d !! e = Some ev /\ start_datetime ev = t.
Proof.
  unfold checked_in_events. rewrite list_elem_of_omap. split.
  - intros ([[p e'] r] & Hin & Hf). apply elem_of_map_to_list in Hin.
    destruct ((p =? pid) && checked_in r) eqn:C; [|discriminate Hf].
    apply andb_true_iff in C as [Hp Hc]. apply Z.eqb_eq in Hp. subst p.
    destruct (events d !! e') as [ev|] eqn:Hev; [|discriminate Hf].
    injection Hf as <- <-. exists r, ev. auto.
  - intros (r & ev & Hr & Hc & Hev & <-). exists ((pid, e), r). split.
    + apply elem_of_map_to_list. exact Hr.
    + rewrite Z.eqb_refl, Hc, Hev. reflexivity.
Qed.

Lemma set_first_event_where_lookup (cond : Z * Z -> bool) (v : bool)
  (a : gmap (Z * Z) attendance_row) (k : Z * Z) :
  set_first_event_where cond v a !! k =
  (fun r => if cond k
            then mk_attendance (rsvp r) (approved r) (checked_in r)
                   (rsvp_datetime r) v (invite_token_id r)
            else r) <$> a !! k.
Proof.
  unfold set_first_event_where. rewrite map_lookup_imap.
  destruct (a !! k); reflexivity.
Qed.

Lemma recompute_first_event_lookup (d : db) (pid e0 t0 : Z) (k : Z * Z) :
  earliest None (checked_in_events d pid) = Some (e0, t0) ->
  attendance (recompute_first_event d pid) !! k =
  (fun r => if k.1 =? pid
            then mk_attendance (rsvp r) (approved r) (checked_in r)
                   (rsvp_datetime r) (k.2 =? e0) (invite_token_id r)
            else r) <$> attendance d !! k.
Proof.
  intros H. unfold recompute_first_event. rewrite H. simpl.
  rewrite !set_first_event_where_lookup.
  destruct (attendance d !! k) as [r|]; [|reflexivity]. simpl. f_equal.
  destruct (k.1 =? pid), (k.2 =? e0); reflexivity.
Qed.

Lemma recompute_first_event_events (d : db) (pid : Z) :
  events (recompute_first_event d pid) = events d.
Proof.
  unfold recompute_first_event.
  destruct (earliest None (checked_in_events d pid)) as [[e0 t0]|]; reflexivity.
Qed.

Lemma find_or_create_invite_token_tables (d : db) (e : Z) (tl : option string) :
  people (find_or_create_invite_token d e tl).2 = people d /\
  attendance (find_or_create_invite_token d e tl).2 = attendance d /\
  events (find_or_create_invite_token d e tl).2 = events d.
Proof.
  unfold find_or_create_invite_token.
  destruct (is_generic _); simpl;
    destruct (lookup_token _ _ _); simpl; auto.
Qed.

(** What [create_attendance_record] does to the tables: the token step,
    then the [ON CONFLICT DO NOTHING] insert of a row whose [checked_in]
    is the returned flag, then the recomputation when that flag is set. *)
Lemma create_attendance_record_shape (en : env) (d : db) (pid eid : Z) (row : csv_row) :
  exists r,
    checked_in r = (create_attendance_record en d pid eid row).1.2 /\
    let d2 := set_attendance (find_or_create_invite_token d eid (r_tracking_link row)).2
                (insert_attendance (attendance d) pid eid r) in
    (create_attendance_record en d pid eid row).2 =
    (if (create_attendance_record en d pid eid row).1.2
     then recompute_first_event d2 pid else d2).
Proof.
  destruct (find_or_create_invite_token_tables d eid (r_tracking_link row)) as [_ [Ha _]].
  unfold create_attendance_record.
  destruct (find_or_create_invite_token d eid (r_tracking_link row)) as [tid d1].
  simpl in Ha |- *. rewrite Ha.
  eexists (mk_attendance _ _ _ _ false tid). split; reflexivity.
Qed.

Lemma insert_attendance_lookup (a : gmap (Z * Z) attendance_row) (pid eid : Z)
  (r : attendance_row) (k : Z * Z) (r' : attendance_row) :
  insert_attendance a pid eid r !! k = Some r' ->
  a !! k = Some r' \/ (k = (pid, eid) /\ r' = r).
Proof.
  unfold insert_attendance. destruct (a !! (pid, eid)); [left; exact H|].
  intros H. destruct (decide (k = (pid, eid))) as [->|Hne].
  - rewrite lookup_insert_eq in H. injection H as <-. right. auto.
  - rewrite lookup_insert_ne in H by congruence. left. exact H.
Qed.

End AttendanceFacts.

(** C1: let every attendance row refer to an existing event (the foreign
    key [attendance.event_id -> events.id]) and let [create_attendance_record]
    process a row it reads as checked in, for an existing event, after which
    the person has at least one checked-in row.  Then exactly one of the
    person's rows has [is_first_event = true]: a checked-in row whose event
    starts no later than the event of any checked-in row of the person.  The
    state before the call is arbitrary, so this holds whatever the order in
    which the rows were added. *)
Theorem first_event_recomputed (en : env) (d : db) (pid eid : Z) (row : csv_row) :
  (forall k r, attendance d !! k = Some r -> is_Some (events d !! k.2)) ->
  is_Some (events d !! eid) ->
  (create_attendance_record en d pid eid row).1.2 = true ->
  (exists e r, attendance (create_attendance_record en d pid eid row).2 !! (pid, e) = Some r
               /\ checked_in r = true) ->
  let d' := (create_attendance_record en d pid eid row).2 in
  exists e0 r0 ev0,
    attendance d' !! (pid, e0) = Some r0 /\ checked_in r0 = true /\
    is_first_event r0 = true /\ events d' !! e0 = Some ev0 /\
    (forall e r, attendance d' !! (pid, e) = Some r -> is_first_event r = true -> e = e0) /\
    (forall e r, attendance d' !! (pid, e) = Some r -> checked_in r = true ->
       exists ev, events d' !! e = Some ev /\ start_datetime ev0 <= start_datetime ev).
Proof.
  intros Hfk Hev Hci Hex d'.
  destruct (AttendanceFacts.create_attendance_record_shape en d pid eid row) as [r [Hr Hd]].
  rewrite Hci in Hr, Hd. fold d' in Hd, Hex.
  destruct (AttendanceFacts.find_or_create_invite_token_tables d eid (r_tracking_link row))
    as [_ [_ Hte]].
  set (d1 := (find_or_create_invite_token d eid (r_tracking_link row)).2) in *.
  set (a2 := insert_attendance (attendance d) pid eid r) in *.
  set (d2 := set_attendance d1 a2) in *.
  assert (He2 : events d2 = events d) by exact Hte.
  assert (Ha2 : attendance d2 = a2) by reflexivity.
  assert (Hfk2 : forall k r', a2 !! k = Some r' -> is_Some (events d !! k.2)).
  { intros k r' Hk. apply AttendanceFacts.insert_attendance_lookup in Hk
      as [Hk|[-> _]]; [exact (Hfk k r' Hk)|exact Hev]. }
  assert (Hed' : events d' = events d).
  { rewrite Hd, AttendanceFacts.recompute_first_event_events. exact He2. }
  destruct (earliest None (checked_in_events d2 pid)) as [[e0 t0]|] eqn:Hearly.
  2:{ exfalso. destruct Hex as (e & r' & Hr' & Hc').
      assert (Hd2 : d' = d2).
      { rewrite Hd. unfold recompute_first_event. rewrite Hearly. reflexivity. }
      rewrite Hd2, Ha2 in Hr'.
      destruct (Hfk2 _ _ Hr') as [ev Hev'].
      apply (AttendanceFacts.earliest_nonempty (checked_in_events d2 pid)
               (e, start_datetime ev)); [|exact Hearly].
      apply AttendanceFacts.checked_in_events_spec. exists r', ev.
      rewrite Ha2, He2. auto. }
  pose proof (AttendanceFacts.earliest_spec _ _ _ Hearly) as [Hin [_ Hmin]].
  destruct Hin as [Hin|Hin]; [discriminate Hin|].
  apply AttendanceFacts.checked_in_events_spec in Hin
    as (r0 & ev0 & Hr0 & Hc0 & Hev0 & Ht0).
  rewrite Ha2, He2 in *.
  assert (Hlk : forall k, attendance d' !! k =
            (fun r => if k.1 =? pid
                      then mk_attendance (rsvp r) (approved r) (checked_in r)
                             (rsvp_datetime r) (k.2 =? e0) (invite_token_id r)
                      else r) <$> a2 !! k).
  { intros k. rewrite Hd. rewrite (AttendanceFacts.recompute_first_event_lookup d2 pid e0 t0 k Hearly).
    reflexivity. }
  exists e0, (mk_attendance (rsvp r0) (approved r0) (checked_in r0) (rsvp_datetime r0) true
            (invite_token_id r0)), ev0.
  split; [|split; [|split; [|split; [|split]]]].
  - rewrite Hlk, Hr0. simpl. rewrite !Z.eqb_refl. reflexivity.
  - exact Hc0.
  - reflexivity.
  - rewrite Hed'. exact Hev0.
  - intros e r' Hr' Hf. rewrite Hlk in Hr'. apply fmap_Some in Hr' as (r1 & _ & ->).
    simpl in Hf. rewrite Z.eqb_refl in Hf. simpl in Hf. apply Z.eqb_eq. exact Hf.
  - intros e r' Hr' Hc'. rewrite Hlk in Hr'. apply fmap_Some in Hr' as (r1 & Hr1 & ->).
    simpl in Hc'. rewrite Z.eqb_refl in Hc'. simpl in Hc'.
    destruct (Hfk2 _ _ Hr1) as [ev Hev']. simpl in Hev'.
    exists ev. rewrite Hed'. split; [exact Hev'|].
    rewrite Ht0. apply (Hmin (e, start_datetime ev)).
    apply AttendanceFacts.checked_in_events_spec. exists r1, ev.
    rewrite Ha2, He2. auto.
Qed.

Lemma first_event_recomputed_witness :
  let d' := (create_attendance_record (mk_env 2025 10 (fun _ => None)) first_event_db 1 5
               checkin_row).2 in
  exists e0 r0 ev0,
    attendance d' !! (1, e0) = Some r0 /\ checked_in r0 = true /\
    is_first_event r0 = true /\ events d' !! e0 = Some ev0 /\
    (forall e r, attendance d' !! (1, e) = Some r -> is_first_event r = true -> e = e0) /\
    (forall e r, attendance d' !! (1, e) = Some r -> checked_in r = true ->
       exists ev, events d' !! e = Some ev /\ start_datetime ev0 <= start_datetime ev).
Proof.
  apply (first_event_recomputed (mk_env 2025 10 (fun _ => None)) first_event_db 1 5
           checkin_row).
  - intros k r H. unfold first_event_db in H. simpl in H.
    apply lookup_singleton_Some in H as [<- _]. vm_compute. eexists. reflexivity.
  - vm_compute. eexists. reflexivity.
  - vm_compute. reflexivity.
  - exists 5. eexists. vm_compute. split; reflexivity.
Defined.

(** ** Claims about re-running an import *)

Module RerunFacts.

Lemma process_event_csv_recount (en : env) (event_id : Z) (d : db) (rows : list csv_row) :
  process_event_csv en event_id d rows =
  d' ← process_rows en event_id d rows; Ok (recount_aggregates d' event_id).
Proof. reflexivity. Qed.

Lemma insert_attendance_present (a : gmap (Z * Z) attendance_row) (pid eid : Z)
  (r : attendance_row) :
  is_Some (a !! (pid, eid)) -> insert_attendance a pid eid r = a.
Proof. intros [r0 H]. unfold insert_attendance. rewrite H. reflexivity. Qed.

Lemma recompute_first_event_checked_in (d : db) (pid : Z) :
  checked_in <$> attendance (recompute_first_event d pid) = checked_in <$> attendance d.
Proof.
  destruct (earliest None (checked_in_events d pid)) as [[e0 t0]|] eqn:H.
  - apply map_eq. intros k. rewrite !lookup_fmap.
    rewrite (AttendanceFacts.recompute_first_event_lookup d pid e0 t0 k H).
    destruct (attendance d !! k); simpl; [|reflexivity].
    destruct (k.1 =? pid); reflexivity.
  - unfold recompute_first_event. rewrite H. reflexivity.
Qed.

(** One call on a pair that already has a row changes no [checked_in]
    value, adds no row, and leaves [people] and [events] alone. *)
Lemma create_attendance_record_present (en : env) (d : db) (pid eid : Z) (row : csv_row) :
  is_Some (attendance d !! (pid, eid)) ->
  let d' := (create_attendance_record en d pid eid row).2 in
  checked_in <$> attendance d' = checked_in <$> attendance d /\
  people d' = people d /\ events d' = events d.
Proof.
  intros Hs d'.
  destruct (AttendanceFacts.create_attendance_record_shape en d pid eid row) as [r [_ Hd]].
  fold d' in Hd.
  destruct (AttendanceFacts.find_or_create_invite_token_tables d eid (r_tracking_link row))
    as [Hp [_ He]].
  rewrite (insert_attendance_present _ _ _ r Hs) in Hd.
  destruct ((create_attendance_record en d pid eid row).1.2); rewrite Hd.
  - rewrite recompute_first_event_checked_in, AttendanceFacts.recompute_first_event_events.
    unfold recompute_first_event.
    destruct (earliest None _) as [[e0 t0]|]; simpl; auto.
  - simpl. auto.
Qed.

Lemma count_checked_in_fmap (a : gmap (Z * Z) attendance_row) (p : Z * Z -> bool) :
  count_checked_in a p =
  Z.of_nat (List.length (List.filter (fun '(k, b) => p k && b)
                           (map_to_list (checked_in <$> a)))).
Proof.
  unfold count_checked_in. rewrite map_to_list_fmap. f_equal.
  induction (map_to_list a) as [|[k r] l IH]; simpl; [reflexivity|].
  destruct (p k && checked_in r); simpl; rewrite IH; reflexivity.
Qed.

Lemma attended_fmap (a : gmap (Z * Z) attendance_row) (i eid : Z) :
  existsb (fun '(k, _) => (k.1 =? i) && (k.2 =? eid)) (map_to_list a) =
  existsb (fun '(k, _) => (k.1 =? i) && (k.2 =? eid)) (map_to_list (checked_in <$> a)).
Proof.
  rewrite map_to_list_fmap.
  induction (map_to_list a) as [|[k r] l IH]; simpl; [reflexivity|].
  rewrite IH. reflexivity.
Qed.

Lemma recount_event (d : db) (eid : Z) :
  event_attendance <$> events (recount_aggregates d eid) !! eid =
  (fun _ => count_checked_in (attendance d) (fun k => k.2 =? eid)) <$> events d !! eid.
Proof.
  unfold recount_aggregates, update_person_attendance_counts, update_event_attendance_count.
  simpl. rewrite lookup_alter_eq. destruct (events d !! eid); reflexivity.
Qed.

Lemma recount_person (d : db) (eid q : Z) :
  event_attendance_count <$> people (recount_aggregates d eid) !! q =
  (fun x => if existsb (fun '(k, _) => (k.1 =? q) && (k.2 =? eid)) (map_to_list (attendance d))
            then count_checked_in (attendance d) (fun k => k.1 =? q)
            else event_attendance_count x) <$> people d !! q.
Proof.
  unfold recount_aggregates, update_person_attendance_counts, update_event_attendance_count.
  simpl. rewrite map_lookup_imap. destruct (people d !! q); simpl; [|reflexivity].
  destruct (existsb _ _); reflexivity.
Qed.

Lemma recount_attendance (d : db) (eid : Z) :
  attendance (recount_aggregates d eid) = attendance d.
Proof. reflexivity. Qed.

End RerunFacts.

(** C2 (counterexample): Ben Smith is person 1 and the row set is "Ben
    Smith" (no email), then "Benjamin Smith" with Ben's email.  The first
    run matches both rows to person 1 (by name, then by email, and the
    second row lengthens the stored first name to "Benjamin"): one
    attendance row, [event.attendance] 1.  Re-running the same rows finds
    no exact name match for "Ben Smith", whose fuzzy average against
    Benjamin Smith is (6/11 + 1)/2 < 0.80, so a new person and a second
    attendance row are created, and [event.attendance] becomes 2. *)
Lemma rerun_duplicates_attendance :
  exists d1 d2,
    process_event_csv (mk_env 2025 10 (fun _ => None)) 7 ben_db [ben_row; benjamin_row]
      = Ok d1 /\
    process_event_csv (mk_env 2025 10 (fun _ => None)) 7 d1 [ben_row; benjamin_row]
      = Ok d2 /\
    size (attendance d1) = 1%nat /\ size (attendance d2) = 2%nat /\
    event_attendance <$> events d1 !! 7 = Some 1 /\
    event_attendance <$> events d2 !! 7 = Some 2.
Proof.
  eexists. eexists.
  split; [vm_compute; reflexivity|].
  split; [vm_compute; reflexivity|].
  vm_compute. repeat split.
Qed.


(* ================================================================== *)
(** * Further properties of the importer *)

(** ** Lookups in [people] *)

Module LookupFacts.

Lemma select_person_some (ps : gmap Z person) (p : Z -> person -> bool) (i : Z) :
  select_person ps p = Some i -> exists x, ps !! i = Some x /\ p i x = true.
Proof.
  unfold select_person.
  destruct (List.find (fun '(i, x) => p i x) (map_to_list ps)) as [[j x]|] eqn:F;
    simpl; [|discriminate].
  intros [= <-]. apply find_some in F as [Hin Hp].
  exists x. split; [|exact Hp].
  apply elem_of_map_to_list. apply list_elem_of_In. exact Hin.
Qed.

Lemma select_person_none (ps : gmap Z person) (p : Z -> person -> bool) :
  select_person ps p = None <-> forall i x, ps !! i = Some x -> p i x = false.
Proof.
  unfold select_person. split.
  - destruct (List.find (fun '(i, x) => p i x) (map_to_list ps)) eqn:F;
      simpl; [discriminate|].
    intros _ i x Hx. apply (find_none _ _ F (i, x)).
    apply list_elem_of_In. apply elem_of_map_to_list. exact Hx.
  - intros H.
    destruct (List.find (fun '(i, x) => p i x) (map_to_list ps)) as [[j x]|] eqn:F;
      simpl; [|reflexivity].
    apply find_some in F as [Hin Hp].
    apply list_elem_of_In, elem_of_map_to_list in Hin.
    rewrite (H j x Hin) in Hp. discriminate.
Qed.

Lemma sql_lower_eq_spec (col : option string) (v : string) :
  sql_lower_eq col v = true <-> exists c, col = Some c /\ lower c = v.
Proof.
  destruct col as [c|]; simpl.
  - rewrite String.eqb_eq. split; [eauto|]. intros (c' & [= <-] & H). exact H.
  - split; [discriminate|]. intros (c & H & _). discriminate H.
Qed.

Lemma find_person_by_email_dom (ps : gmap Z person) (e : option string) (i : Z) :
  find_person_by_email ps e = Some i -> is_Some (ps !! i).
Proof.
  unfold find_person_by_email. destruct (negb (truthy e)); [discriminate|].
  intros H. apply select_person_some in H as (x & Hx & _). eauto.
Qed.

Lemma find_person_by_phone_dom (ps : gmap Z person) (ph : option string) (i : Z) :
  find_person_by_phone ps ph = Some i -> is_Some (ps !! i).
Proof.
  unfold find_person_by_phone. destruct (negb (truthy ph)); [discriminate|].
  intros H. apply select_person_some in H as (x & Hx & _). eauto.
Qed.

Lemma find_person_by_name_dom (ps : gmap Z person) (f l : option string) (i : Z) :
  find_person_by_name ps f l = Some i -> is_Some (ps !! i).
Proof.
  unfold find_person_by_name. destruct (negb (truthy f) || negb (truthy l)); [discriminate|].
  intros H. apply select_person_some in H as (x & Hx & _). eauto.
Qed.

End LookupFacts.

(** X1: [find_person_by_email] returns only a person one of whose two
    email columns, lower-cased, equals the stripped lower-cased input; it
    returns [None] exactly when the input is missing or empty or no person
    has such an email. *)
Theorem find_person_by_email_spec (ps : gmap Z person) (email : option string) :
  (forall i, find_person_by_email ps email = Some i ->
     exists e x c, email = Some e /\ ps !! i = Some x /\
       (school_email x = Some c \/ personal_email x = Some c) /\
       lower c = strip (lower e)) /\
  (find_person_by_email ps email = None <->
     truthy email = false \/
     forall e i x c, email = Some e -> ps !! i = Some x ->
       (school_email x = Some c \/ personal_email x = Some c) ->
       lower c <> strip (lower e)).
Proof.
  unfold find_person_by_email. split.
  - intros i. destruct (truthy email) eqn:T; simpl; [|discriminate].
    destruct email as [e|]; [|discriminate T]. simpl.
    intros H. apply LookupFacts.select_person_some in H as (x & Hx & Hp).
    apply orb_true_iff in Hp as [Hp|Hp];
      apply LookupFacts.sql_lower_eq_spec in Hp as (c & Hc & Hl);
      exists e, x, c; auto.
  - destruct (truthy email) eqn:T; simpl.
    + rewrite LookupFacts.select_person_none. split.
      * intros H. right. intros e i x c -> Hx Hc Hl. specialize (H i x Hx).
        apply orb_false_iff in H as [H1 H2]. simpl in H1, H2.
        destruct Hc as [Hc|Hc]; rewrite Hc in *; simpl in *;
          rewrite Hl, String.eqb_refl in *; discriminate.
      * intros [H|H]; [discriminate H|]. intros i x Hx.
        destruct email as [e|]; [|discriminate T]. simpl.
        apply orb_false_iff. split.
        -- destruct (school_email x) as [c|] eqn:Hc; [|reflexivity]. simpl.
           apply String.eqb_neq. exact (H e i x c eq_refl Hx (or_introl Hc)).
        -- destruct (personal_email x) as [c|] eqn:Hc; [|reflexivity]. simpl.
           apply String.eqb_neq. exact (H e i x c eq_refl Hx (or_intror Hc)).
    + split; [intros _; left; reflexivity|reflexivity].
Qed.

(** X2: [find_person_by_phone] returns only a person whose stored phone
    number equals the stripped input exactly (no case folding, no other
    normalisation); it returns [None] exactly when the input is missing or
    empty or no person has that phone number. *)
Theorem find_person_by_phone_spec (ps : gmap Z person) (phone : option string) :
  (forall i, find_person_by_phone ps phone = Some i ->
     exists p x, phone = Some p /\ ps !! i = Some x /\ phone_number x = Some (strip p)) /\
  (find_person_by_phone ps phone = None <->
     truthy phone = false \/
     forall p i x, phone = Some p -> ps !! i = Some x -> phone_number x <> Some (strip p)).
Proof.
  unfold find_person_by_phone. split.
  - intros i. destruct (truthy phone) eqn:T; simpl; [|discriminate].
    destruct phone as [p|]; [|discriminate T]. simpl.
    intros H. apply LookupFacts.select_person_some in H as (x & Hx & Hp).
    destruct (phone_number x) as [q|] eqn:Hq; [|discriminate Hp].
    apply String.eqb_eq in Hp. subst q. exists p, x. auto.
  - destruct (truthy phone) eqn:T; simpl.
    + rewrite LookupFacts.select_person_none. split.
      * intros H. right. intros p i x -> Hx Hq. specialize (H i x Hx).
        simpl in H. rewrite Hq, String.eqb_refl in H. discriminate.
      * intros [H|H]; [discriminate H|]. intros i x Hx.
        destruct phone as [p|]; [|discriminate T]. simpl.
        destruct (phone_number x) as [q|] eqn:Hq; [|reflexivity].
        apply String.eqb_neq. intros ->. exact (H p i x eq_refl Hx Hq).
    + split; [intros _; left; reflexivity|reflexivity].
Qed.

(** X3: [find_person_by_name] returns only a person whose stored first and
    last names, lower-cased, equal the stripped, title-cased, lower-cased
    input names; it returns [None] exactly when an input name is missing or
    empty or no person has both names. *)
Theorem find_person_by_name_spec (ps : gmap Z person) (fname lname : option string) :
  (forall i, find_person_by_name ps fname lname = Some i ->
     exists f l x cf cl, fname = Some f /\ lname = Some l /\ ps !! i = Some x /\
       first_name x = Some cf /\ last_name x = Some cl /\
       lower cf = lower (title (strip f)) /\ lower cl = lower (title (strip l))) /\
  (find_person_by_name ps fname lname = None <->
     truthy fname = false \/ truthy lname = false \/
     forall f l i x cf cl, fname = Some f -> lname = Some l -> ps !! i = Some x ->
       first_name x = Some cf -> last_name x = Some cl ->
       ~ (lower cf = lower (title (strip f)) /\ lower cl = lower (title (strip l)))).
Proof.
  unfold find_person_by_name. split.
  - intros i. destruct (truthy fname) eqn:Tf, (truthy lname) eqn:Tl; simpl;
      try discriminate.
    destruct fname as [f|]; [|discriminate Tf]. destruct lname as [l|]; [|discriminate Tl].
    simpl. intros H. apply LookupFacts.select_person_some in H as (x & Hx & Hp).
    apply andb_true_iff in Hp as [Hf Hl].
    apply LookupFacts.sql_lower_eq_spec in Hf as (cf & Hcf & Ef).
    apply LookupFacts.sql_lower_eq_spec in Hl as (cl & Hcl & El).
    exists f, l, x, cf, cl. auto 10.
  - destruct (truthy fname) eqn:Tf, (truthy lname) eqn:Tl; simpl.
    + rewrite LookupFacts.select_person_none. split.
      * intros H. right. right. intros f l i x cf cl -> -> Hx Hcf Hcl [Ef El].
        specialize (H i x Hx). simpl in H. rewrite Hcf, Hcl in H. simpl in H.
        rewrite Ef, El, !String.eqb_refl in H. discriminate.
      * intros [H|[H|H]]; [discriminate H|discriminate H|]. intros i x Hx.
        destruct fname as [f|]; [|discriminate Tf]. destruct lname as [l|]; [|discriminate Tl].
        simpl.
        destruct (first_name x) as [cf|] eqn:Hcf; [|reflexivity].
        destruct (last_name x) as [cl|] eqn:Hcl; simpl; [|apply andb_false_r].
        destruct (String.eqb (lower cf) (lower (title (strip f)))) eqn:Ef;
          [|reflexivity].
        destruct (String.eqb (lower cl) (lower (title (strip l)))) eqn:El;
          [|reflexivity].
        apply String.eqb_eq in Ef, El. exfalso. exact (H f l i x cf cl eq_refl eq_refl Hx Hcf Hcl (conj Ef El)).
    + split; [intros _; right; left; reflexivity|reflexivity].
    + split; [intros _; left; reflexivity|reflexivity].
    + split; [intros _; left; reflexivity|reflexivity].
Qed.

(** ** Name and tracking-link matching *)

Module MatchFacts.

Lemma shortlist_sound (f l : string) (rows : list (Z * person)) (ms : list (Z * Q))
  (i : Z) (a : Q) :
  shortlist f l rows = Ok ms -> (i, a) ∈ ms ->
  exists x, (i, x) ∈ rows /\ candidate_ratio f l x = Ok a /\
            (FUZZY_MATCH_THRESHOLD <= a)%Q.
Proof.
  revert ms. induction rows as [|[j x] rows IH]; intros ms H Hin; simpl in H.
  - injection H as <-. inversion Hin.
  - destruct (candidate_ratio f l x) as [avg|e] eqn:Hc; simpl in H; [|discriminate H].
    destruct (shortlist f l rows) as [tl|e] eqn:Ht; simpl in H; [|discriminate H].
    injection H as <-.
    destruct (Qle_bool FUZZY_MATCH_THRESHOLD avg) eqn:Q.
    + apply elem_of_cons in Hin as [[= -> ->]|Hin].
      * exists x. split; [apply elem_of_cons; left; reflexivity|].
        split; [exact Hc|apply Qle_bool_iff; exact Q].
      * destruct (IH tl eq_refl Hin) as (y & Hy & Hr & Hq).
        exists y. split; [apply elem_of_cons; right; exact Hy|auto].
    + destruct (IH tl eq_refl Hin) as (y & Hy & Hr & Hq).
      exists y. split; [apply elem_of_cons; right; exact Hy|auto].
Qed.

Lemma fuzzy_match_name_sound (ps : gmap Z person) (fname lname : option string) (i : Z) :
  fuzzy_match_name ps fname lname = Ok (Some i) ->
  exists f l x a, fname = Some f /\ lname = Some l /\ ps !! i = Some x /\
    candidate_ratio (lower (title (strip f))) (lower (title (strip l))) x = Ok a /\
    (90 # 100 <= a)%Q.
Proof.
  unfold fuzzy_match_name.
  destruct (truthy fname) eqn:Tf, (truthy lname) eqn:Tl; simpl; try discriminate.
  destruct fname as [f|]; [|discriminate Tf]. destruct lname as [l|]; [|discriminate Tl].
  simpl.
  destruct (shortlist _ _ (map_to_list ps)) as [ms|e] eqn:Hs; simpl;
    [|intros C; congruence].
  pose proof (FuzzyFacts.sort_desc_perm ms) as Hp.
  destruct (sort_desc ms) as [|[bi ba] t]; [intros C; congruence|].
  simpl. destruct (Qle_bool (90 # 100) ba) eqn:Q; [|intros C; congruence]. intros [= <-].
  assert (Hin : (bi, ba) ∈ ms) by (rewrite <- Hp; apply elem_of_cons; left; reflexivity).
  destruct (shortlist_sound _ _ _ _ _ _ Hs Hin) as (x & Hx & Hc & _).
  apply elem_of_map_to_list in Hx.
  exists f, l, x, ba. repeat split; auto. apply Qle_bool_iff. exact Q.
Qed.

(** One person of the fuzzy pass of [match_tracking_link_to_person] keeps
    the current best a person one of whose checked names reaches the
    threshold. *)
Lemma tracking_fuzzy_step_sound (ps : gmap Z person) (clean : string) (single : bool)
  (thr : Q) (acc : option Z * Q) (j : Z) (x : person) (i : Z) :
  ps !! j = Some x ->
  (forall j', acc.1 = Some j' -> exists y, ps !! j' = Some y /\
     ((thr <= Difflib.ratio clean (lower_or_empty (first_name y)))%Q \/
      (single = false /\ (thr <= Difflib.ratio clean (lower_or_empty (last_name y)))%Q))) ->
  (tracking_fuzzy_step clean single thr acc (j, x)).1 = Some i ->
  exists y, ps !! i = Some y /\
     ((thr <= Difflib.ratio clean (lower_or_empty (first_name y)))%Q \/
      (single = false /\ (thr <= Difflib.ratio clean (lower_or_empty (last_name y)))%Q)).
Proof.
  intros Hx Hacc H. unfold tracking_fuzzy_step in H. cbv zeta in H.
  repeat (case_match; simpl in H);
    repeat match goal with
    | E : (Qle_bool _ _ && _) = true |- _ => apply andb_true_iff in E as [E _]
    | E : negb single && _ = true |- _ => apply andb_true_iff in E as [E _]
    | E : Qle_bool _ _ = true |- _ => apply Qle_bool_iff in E
    end;
    try (simplify_eq; exists x; split; [exact Hx|]);
    try (left; assumption);
    try (right; split; [apply negb_true_iff; assumption|assumption]);
    try (apply Hacc; assumption).
Qed.

End MatchFacts.

(** X4: a person returned by [fuzzy_match_name] exists and has names
    present, and its averaged ratio against the stripped, title-cased,
    lower-cased input names is at least 0.90. *)
Theorem fuzzy_match_name_accepts_only_close (ps : gmap Z person)
  (fname lname : option string) (i : Z) :
  fuzzy_match_name ps fname lname = Ok (Some i) ->
  exists f l x cf cl, fname = Some f /\ lname = Some l /\ ps !! i = Some x /\
    first_name x = Some cf /\ last_name x = Some cl /\
    (90 # 100 <= (Difflib.ratio (lower (title (strip f))) (lower cf) +
                  Difflib.ratio (lower (title (strip l))) (lower cl)) / 2)%Q.
Proof.
  intros H. apply MatchFacts.fuzzy_match_name_sound in H as (f & l & x & a & -> & -> & Hx & Hc & Ha).
  unfold candidate_ratio in Hc.
  destruct (first_name x) as [cf|] eqn:Hf, (last_name x) as [cl|] eqn:Hl;
    try discriminate Hc.
  injection Hc as <-. exists f, l, x, cf, cl. auto 7.
Qed.

Lemma fuzzy_match_name_accepts_only_close_witness :
  exists f l x cf cl, Some "Jon" = Some f /\ Some "Smith" = Some l /\
    people john_db !! 2 = Some x /\
    first_name x = Some cf /\ last_name x = Some cl /\
    (90 # 100 <= (Difflib.ratio (lower (title (strip f))) (lower cf) +
                  Difflib.ratio (lower (title (strip l))) (lower cl)) / 2)%Q.
Proof.
  apply (fuzzy_match_name_accepts_only_close (people john_db) (Some "Jon") (Some "Smith") 2).
  vm_compute. reflexivity.
Defined.

(** X5: a person returned by [match_tracking_link_to_person] exists, the
    stripped lower-cased link is not one of the ten generic codes, and the
    cleaned link ([_] and [-] read as spaces, then stripped) equals the
    person's lower-cased first name, or reaches ratio 0.80 against it; the
    last name takes part the same way only for links containing [_] or
    [-]. *)
Theorem match_tracking_link_to_person_sound (ps : gmap Z person) (link : option string)
  (i : Z) :
  match_tracking_link_to_person ps link = Some i ->
  exists v x, link = Some v /\ ps !! i = Some x /\
    let lv := lower (strip v) in
    let single := negb (contains "_" lv) && negb (contains "-" lv) in
    let clean := strip (replace_char "-" " " (replace_char "_" " " lv)) in
    existsb (String.eqb lv) tracking_generic_codes = false /\
    (clean = lower_or_empty (first_name x) \/
     (single = false /\ clean = lower_or_empty (last_name x)) \/
     (80 # 100 <= Difflib.ratio clean (lower_or_empty (first_name x)))%Q \/
     (single = false /\ (80 # 100 <= Difflib.ratio clean (lower_or_empty (last_name x)))%Q)).
Proof.
  unfold match_tracking_link_to_person.
  destruct (truthy link) eqn:T; cbn [negb]; [|intros C; discriminate C].
  destruct link as [v|]; [|discriminate T]. cbn [default from_option id].
  set (lv := lower (strip v)).
  destruct (existsb (String.eqb lv) tracking_generic_codes) eqn:G; [intros C; discriminate C|].
  set (single := negb (contains "_" lv) && negb (contains "-" lv)).
  set (clean := strip (replace_char "-" " " (replace_char "_" " " lv))).
  destruct (List.find _ (map_to_list ps)) as [[j x]|] eqn:F.
  - intros [= <-]. apply find_some in F as [Hin Hp].
    apply list_elem_of_In, elem_of_map_to_list in Hin.
    exists v, x. split; [reflexivity|]. split; [exact Hin|]. split; [exact G|].
    apply orb_true_iff in Hp as [Hp|Hp].
    + left. apply String.eqb_eq. exact Hp.
    + apply andb_true_iff in Hp as [Hs Hp]. right. left.
      split; [apply negb_true_iff; exact Hs|apply String.eqb_eq; exact Hp].
  - intros H.
    assert (Hfold : forall rows acc,
      (forall j x, (j, x) ∈ rows -> ps !! j = Some x) ->
      (forall j', acc.1 = Some j' -> exists y, ps !! j' = Some y /\
         ((80 # 100 <= Difflib.ratio clean (lower_or_empty (first_name y)))%Q \/
          (single = false /\
           (80 # 100 <= Difflib.ratio clean (lower_or_empty (last_name y)))%Q))) ->
      forall i', (fold_left (tracking_fuzzy_step clean single (80 # 100)) rows acc).1
                   = Some i' ->
      exists y, ps !! i' = Some y /\
         ((80 # 100 <= Difflib.ratio clean (lower_or_empty (first_name y)))%Q \/
          (single = false /\
           (80 # 100 <= Difflib.ratio clean (lower_or_empty (last_name y)))%Q))).
    { induction rows as [|[j x] rows IH]; intros acc Hrows Hacc i' Hi; simpl in Hi.
      - exact (Hacc i' Hi).
      - refine (IH _ _ _ i' Hi).
        + intros j' x' Hj. apply Hrows, elem_of_cons. right. exact Hj.
        + intros j'. apply MatchFacts.tracking_fuzzy_step_sound with (x := x);
            [apply Hrows, elem_of_cons; left; reflexivity|exact Hacc]. }
    destruct (Hfold (map_to_list ps) (None, 0%Q)) with (i' := i) as (y & Hy & Hr).
    + intros j x Hj. apply elem_of_map_to_list. exact Hj.
    + intros j' C. discriminate C.
    + exact H.
    + exists v, y. split; [reflexivity|]. split; [exact Hy|]. split; [exact G|].
      destruct Hr as [Hr|Hr]; [right; right; left; exact Hr|right; right; right; exact Hr].
Qed.

Lemma match_tracking_link_to_person_sound_witness :
  exists v x, Some "alicee" = Some v /\ people referral_db !! 1 = Some x /\
    let lv := lower (strip v) in
    let single := negb (contains "_" lv) && negb (contains "-" lv) in
    let clean := strip (replace_char "-" " " (replace_char "_" " " lv)) in
    existsb (String.eqb lv) tracking_generic_codes = false /\
    (clean = lower_or_empty (first_name x) \/
     (single = false /\ clean = lower_or_empty (last_name x)) \/
     (80 # 100 <= Difflib.ratio clean (lower_or_empty (first_name x)))%Q \/
     (single = false /\ (80 # 100 <= Difflib.ratio clean (lower_or_empty (last_name x)))%Q)).
Proof.
  apply (match_tracking_link_to_person_sound (people referral_db) (Some "alicee") 1).
  vm_compute. reflexivity.
Defined.

(** X6: for a link without [_] or [-] (after stripping and lower-casing),
    [match_tracking_link_to_person] never looks at last names: changing
    every person in a way that keeps first names gives the same result. *)
Theorem match_tracking_link_single_word_ignores_last_names (ps : gmap Z person)
  (g : person -> person) (v : string) :
  (forall x, first_name (g x) = first_name x) ->
  contains "_" (lower (strip v)) = false -> contains "-" (lower (strip v)) = false ->
  match_tracking_link_to_person (g <$> ps) (Some v) = match_tracking_link_to_person ps (Some v).
Proof.
  intros Hg Hu Hd. unfold match_tracking_link_to_person.
  destruct (negb (truthy (Some v))); [reflexivity|]. cbn [default from_option id].
  destruct (existsb _ tracking_generic_codes); [reflexivity|].
  rewrite Hu, Hd. cbn [negb andb].
  set (clean := strip (replace_char "-" " " (replace_char "_" " " (lower (strip v))))).
  rewrite map_to_list_fmap.
  assert (Hstep : forall acc j x, tracking_fuzzy_step clean true (80 # 100) acc (j, g x) =
                                  tracking_fuzzy_step clean true (80 # 100) acc (j, x)).
  { intros acc j x. unfold tracking_fuzzy_step. rewrite Hg. reflexivity. }
  assert (Hfold : forall l acc,
     fold_left (tracking_fuzzy_step clean true (80 # 100)) (prod_map id g <$> l) acc =
     fold_left (tracking_fuzzy_step clean true (80 # 100)) l acc).
  { induction l as [|[j x] l IH]; intros acc; cbn -[tracking_fuzzy_step]; [reflexivity|].
    rewrite Hstep. apply IH. }
  assert (Hfind : forall (P : Z * person -> bool) (l : list (Z * person)),
     (forall j x, P (j, g x) = P (j, x)) ->
     (@fst Z person) <$> List.find P (prod_map id g <$> l) =
     (@fst Z person) <$> List.find P l).
  { intros P l HP. induction l as [|[j x] l IH]; [reflexivity|].
    change (prod_map id g <$> (j, x) :: l) with ((j, g x) :: (prod_map id g <$> l)).
    simpl. rewrite HP. destruct (P (j, x)); [reflexivity|exact IH]. }
  match goal with
  | |- context [List.find ?P (prod_map id g <$> _)] =>
      specialize (Hfind P (map_to_list ps));
      assert (HP : forall j x, P (j, g x) = P (j, x))
        by (intros j x; cbn; rewrite Hg; reflexivity);
      specialize (Hfind HP)
  end.
  destruct (List.find _ (prod_map id g <$> map_to_list ps)) as [[j x]|];
    destruct (List.find _ (map_to_list ps)) as [[j' x']|];
    simpl in Hfind; try discriminate Hfind.
  - injection Hfind as ->. reflexivity.
  - apply (f_equal fst). apply Hfold.
Qed.

Lemma match_tracking_link_single_word_ignores_last_names_witness :
  match_tracking_link_to_person
    ((fun x => mk_person (first_name x) (Some "Doe") (gender x) (class_year x) (school x)
                 (preferred_name x) (school_email x) (personal_email x) (phone_number x)
                 (referral_count x) (event_attendance_count x)) <$> people referral_db)
    (Some "Alice") =
  match_tracking_link_to_person (people referral_db) (Some "Alice").
Proof.
  apply match_tracking_link_single_word_ignores_last_names;
    [intros x; reflexivity|reflexivity|reflexivity].
Defined.

(** ** Name updates *)

Module NameFacts.

Lemma longer_cases (a b : string) :
  (longer a b = a \/ longer a b = b) /\
  (String.length a <= String.length (longer a b))%nat.
Proof.
  unfold longer. destruct (String.length a <? String.length b)%nat eqn:L.
  - apply Nat.ltb_lt in L. split; [right; reflexivity|lia].
  - split; [left; reflexivity|lia].
Qed.

End NameFacts.

(** X7: [update_names_if_substring], called with a person's stored names
    as the sheet names, never shortens a stored name: each of the person's
    names afterwards is the stored one, the input one, or (first name only)
    the empty string in place of a [NULL]; no other column of the person and
    no other person changes. *)
Theorem update_names_if_substring_never_shortens (d : db) (pid : Z) (x : person)
  (input_first input_last : option string) :
  people d !! pid = Some x ->
  let d' := update_names_if_substring d pid (first_name x) (last_name x)
              input_first input_last in
  attendance d' = attendance d /\ events d' = events d /\
  (forall q, q <> pid -> people d' !! q = people d !! q) /\
  exists x', people d' !! pid = Some x' /\
    (opt_length (first_name x) <= opt_length (first_name x'))%nat /\
    (opt_length (last_name x) <= opt_length (last_name x'))%nat /\
    (first_name x' = first_name x \/ first_name x' = input_first \/
     (first_name x = None /\ first_name x' = Some "")) /\
    (last_name x' = last_name x \/ last_name x' = input_last) /\
    gender x' = gender x /\ class_year x' = class_year x /\ school x' = school x /\
    preferred_name x' = preferred_name x /\ school_email x' = school_email x /\
    personal_email x' = personal_email x /\ phone_number x' = phone_number x /\
    referral_count x' = referral_count x /\
    event_attendance_count x' = event_attendance_count x.
Proof.
  intros Hx d'. unfold d', update_names_if_substring.
  set (sf := if truthy (first_name x) then default "" (first_name x) else "").
  set (inf := if truthy input_first then default "" input_first else "").
  assert (Hsf : opt_length (first_name x) = String.length sf /\
                (first_name x = Some sf \/ (first_name x = None /\ sf = ""))).
  { unfold sf. destruct (first_name x) as [s|]; simpl; [|auto].
    destruct (String.eqb s "") eqn:E; simpl.
    - apply String.eqb_eq in E. subst s. auto.
    - auto. }
  assert (Hinf : input_first = Some inf \/ inf = "").
  { unfold inf. destruct input_first as [s|]; simpl; [|auto].
    destruct (String.eqb s "") eqn:E; simpl; [right; reflexivity|left; reflexivity]. }
  set (new_first := if substr_either sf inf then Some (longer sf inf) else None).
  set (new_last := match last_name x, input_last with
                   | Some sl, Some il => if substr_either sl il then Some (longer sl il) else None
                   | _, _ => None
                   end).
  set (upd := fun y : person =>
    mk_person (match new_first with Some v => Some v | None => first_name y end)
              (match new_last with Some v => Some v | None => last_name y end)
              (gender y) (class_year y) (school y) (preferred_name y) (school_email y)
              (personal_email y) (phone_number y) (referral_count y)
              (event_attendance_count y)).
  assert (Hf : (opt_length (first_name x) <= opt_length (first_name (upd x)))%nat /\
               (first_name (upd x) = first_name x \/ first_name (upd x) = input_first \/
                (first_name x = None /\ first_name (upd x) = Some ""))).
  { simpl. unfold new_first. destruct (substr_either sf inf); [|split; [lia|auto]].
    simpl. destruct Hsf as [Hsl Hs].
    destruct (NameFacts.longer_cases sf inf) as [Hc Hlen].
    split; [rewrite Hsl; exact Hlen|].
    destruct Hinf as [Hi|Hi].
    - destruct Hc as [Hc|Hc]; rewrite Hc.
      + destruct Hs as [Hs|[Hs ->]]; [left; rewrite Hs; reflexivity|right; right; auto].
      + right. left. rewrite Hi. reflexivity.
    - assert (Hc' : longer sf inf = sf)
        by (rewrite Hi; unfold longer; destruct (String.length sf); reflexivity).
      rewrite Hc'.
      destruct Hs as [Hs|[Hs ->]]; [left; rewrite Hs; reflexivity|right; right; auto]. }
  assert (Hl : (opt_length (last_name x) <= opt_length (last_name (upd x)))%nat /\
               (last_name (upd x) = last_name x \/ last_name (upd x) = input_last)).
  { simpl. unfold new_last.
    destruct (last_name x) as [sl|] eqn:Hsl, input_last as [il|];
      try (split; [lia|left; reflexivity]).
    destruct (substr_either sl il); [|split; [lia|left; reflexivity]].
    destruct (NameFacts.longer_cases sl il) as [[Hlo|Hlo] Hlen]; rewrite Hlo in *; simpl;
      split; auto; lia. }
  destruct (is_none new_first && is_none new_last) eqn:N.
  - split; [reflexivity|]. split; [reflexivity|]. split; [reflexivity|].
    exists x. split; [exact Hx|]. split; [lia|]. split; [lia|]. auto 20.
  - simpl. split; [reflexivity|]. split; [reflexivity|]. split.
    + intros q Hq. apply lookup_alter_ne. congruence.
    + exists (upd x). split; [rewrite lookup_alter_eq, Hx; reflexivity|].
      destruct Hf as [Hf1 Hf2], Hl as [Hl1 Hl2].
      split; [exact Hf1|]. split; [exact Hl1|]. split; [exact Hf2|]. split; [exact Hl2|].
      repeat split.
Qed.

Lemma update_names_if_substring_never_shortens_witness :
  let d' := update_names_if_substring ben_db 1 (Some "Ben") (Some "Smith")
              (Some "Benjamin") (Some "Smith") in
  attendance d' = attendance ben_db /\ events d' = events ben_db /\
  (forall q, q <> 1 -> people d' !! q = people ben_db !! q) /\
  exists x', people d' !! 1 = Some x' /\
    (opt_length (Some "Ben") <= opt_length (first_name x'))%nat /\
    (opt_length (Some "Smith") <= opt_length (last_name x'))%nat /\
    (first_name x' = Some "Ben" \/ first_name x' = Some "Benjamin" \/
     (Some "Ben" = None /\ first_name x' = Some "")) /\
    (last_name x' = Some "Smith" \/ last_name x' = Some "Smith") /\
    gender x' = None /\ class_year x' = None /\ school x' = None /\
    preferred_name x' = None /\ school_email x' = None /\
    personal_email x' = Some "ben@example.com" /\ phone_number x' = None /\
    referral_count x' = 0 /\ event_attendance_count x' = 0.
Proof.
  exact (update_names_if_substring_never_shortens ben_db 1
           (mk_person (Some "Ben") (Some "Smith") None None None None None
              (Some "ben@example.com") None 0 0)
           (Some "Benjamin") (Some "Smith") eq_refl).
Defined.

(** ** Finding or creating a person *)

Module PersonFacts.

Lemma update_contact_info_tables (d : db) (i : Z) (rd : row_data) :
  let d' := (update_contact_info d i rd).1 in
  attendance d' = attendance d /\ events d' = events d /\
  invitetokens d' = invitetokens d /\ next_person_id d' = next_person_id d /\
  dom (people d') = dom (people d) /\
  (forall q, q <> i -> people d' !! q = people d !! q) /\
  (forall x, people d !! i = Some x -> exists x', people d' !! i = Some x' /\
     first_name x' = first_name x /\ last_name x' = last_name x /\
     referral_count x' = referral_count x /\
     event_attendance_count x' = event_attendance_count x).
Proof.
  unfold update_contact_info. destruct (people d !! i) as [cur|] eqn:Hc; simpl.
  - split; [reflexivity|]. split; [reflexivity|]. split; [reflexivity|].
    split; [reflexivity|]. split.
    + rewrite dom_insert_L. apply set_eq. intros q. rewrite elem_of_union, elem_of_singleton.
      split; [intros [->|Hq]; [apply elem_of_dom; eauto|exact Hq]|intros Hq; right; exact Hq].
    + split.
      * intros q Hq. apply lookup_insert_ne. congruence.
      * intros x [= <-]. eexists. rewrite lookup_insert_eq. split; [reflexivity|].
        simpl. auto.
  - repeat split; auto. intros x Hx. congruence.
Qed.

Lemma update_names_if_substring_tables (d : db) (i : Z) (sf sl inf il : option string) :
  let d' := update_names_if_substring d i sf sl inf il in
  attendance d' = attendance d /\ events d' = events d /\
  invitetokens d' = invitetokens d /\ next_person_id d' = next_person_id d /\
  dom (people d') = dom (people d).
Proof.
  unfold update_names_if_substring.
  destruct (is_none _ && is_none _); simpl; [auto|].
  repeat split. apply dom_alter_L.
Qed.

Lemma maybe_update_names_tables (d0 : db) (i : Z) (b : bool) (fname lname : option string) :
  let d1 := if b then
              match people d0 !! i with
              | Some x => update_names_if_substring d0 i (first_name x) (last_name x) fname lname
              | None => d0
              end
            else d0 in
  attendance d1 = attendance d0 /\ events d1 = events d0 /\
  invitetokens d1 = invitetokens d0 /\ next_person_id d1 = next_person_id d0 /\
  dom (people d1) = dom (people d0).
Proof.
  destruct b; [|auto]. destruct (people d0 !! i); [|auto].
  apply update_names_if_substring_tables.
Qed.

Lemma option_if_sound (P : Z -> Prop) (c : bool) (a b : option Z) :
  (forall i, a = Some i -> P i) -> (forall i, b = Some i -> P i) ->
  forall i, (if c then a else b) = Some i -> P i.
Proof. destruct c; auto. Qed.

End PersonFacts.

Module CreateFacts.

Lemma find_or_create_person_spec (en : env) (d : db) (row : csv_row)
  (pid : Z) (wc cu : bool) (d' : db) :
  find_or_create_person en d row = Ok (pid, wc, cu, d') ->
  attendance d' = attendance d /\ events d' = events d /\
  invitetokens d' = invitetokens d /\ is_Some (people d' !! pid) /\
  (wc = false -> is_Some (people d !! pid) /\ dom (people d') = dom (people d) /\
                 next_person_id d' = next_person_id d) /\
  (wc = true -> pid = next_person_id d /\ next_person_id d' = pid + 1 /\
                dom (people d') = {[pid]} ∪ dom (people d) /\
                exists x, people d' !! pid = Some x /\
                  first_name x = clean_name (r_first_name row) /\
                  last_name x = clean_name (r_last_name row) /\
                  referral_count x = 0 /\ event_attendance_count x = 0).
Proof.
  intros H. unfold find_or_create_person in H. cbv zeta in H.
  match type of H with
  | (match ?E with (_, _) => _ end) = _ => destruct E as [sef pef] eqn:HE
  end.
  match type of H with
  | mbind ?K ?M = _ => destruct M as [p4|e] eqn:HM; [|discriminate H]
  end.
  assert (Hp4 : forall i, p4 = Some i -> is_Some (people d !! i)).
  { revert HM.
    match goal with
    | |- (if ?c then fuzzy_match_name _ _ _ else Ok _) = _ -> _ => destruct c
    end.
    - intros HM i ->. apply MatchFacts.fuzzy_match_name_sound in HM
        as (f & l & x & a & _ & _ & Hx & _). eauto.
    - intros [= <-].
      repeat match goal with
      | |- forall i, (if _ then _ else _) = Some i -> _ =>
          apply (PersonFacts.option_if_sound (fun i => is_Some (people d !! i)))
      | |- forall i, find_person_by_email _ _ = Some i -> _ =>
          intros i; apply LookupFacts.find_person_by_email_dom
      | |- forall i, find_person_by_phone _ _ = Some i -> _ =>
          intros i; apply LookupFacts.find_person_by_phone_dom
      | |- forall i, find_person_by_name _ _ _ = Some i -> _ =>
          intros i; apply LookupFacts.find_person_by_name_dom
      | |- forall i, None = Some i -> _ => intros i C; discriminate C
      end. }
  clear HM. simpl in H.
  destruct p4 as [i|]; [destruct (id_truthy (Some i)) eqn:Ht|].
  - match type of H with
    | context [update_contact_info d i ?R] => set (rd := R) in H
    end.
    pose proof (PersonFacts.update_contact_info_tables d i rd) as HU. cbv zeta in HU.
    destruct (update_contact_info d i rd) as [d0 cu0] eqn:E. simpl in HU.
    injection H as <- <- <- Hd'.
    match type of Hd' with
    | (if ?b then _ else _) = _ =>
        pose proof (PersonFacts.maybe_update_names_tables d0 i b
                      (clean_name (r_first_name row)) (clean_name (r_last_name row))) as HN
    end.
    cbv zeta in HN. rewrite Hd' in HN.
    destruct HU as (Ha & He & Htk & Hn & Hdom & _ & _).
    destruct HN as (Ha' & He' & Htk' & Hn' & Hdom').
    assert (Hi : is_Some (people d !! i)) by (apply Hp4; reflexivity).
    split; [congruence|]. split; [congruence|]. split; [congruence|].
    split; [apply elem_of_dom; rewrite Hdom', Hdom; apply elem_of_dom; exact Hi|].
    split; [intros _; split; [exact Hi|split; congruence]|].
    intros C; discriminate C.
  -
    match type of H with
    | context [update_contact_info ?D0 _ ?R] => set (dc := D0) in H; set (rd := R) in H
    end.
    pose proof (PersonFacts.update_contact_info_tables dc (next_person_id d) rd) as HU.
    cbv zeta in HU.
    destruct (update_contact_info dc (next_person_id d) rd) as [d0 cu0] eqn:E. simpl in HU.
    simpl in H. injection H as <- <- <- <-.
    destruct HU as (Ha & He & Htk & Hn & Hdom & _ & Hx).
    edestruct Hx as (x' & Hx' & Hf & Hl & Hr & Hc).
    { subst dc. simpl. apply lookup_insert_eq. }
    subst dc. simpl in Ha, He, Htk, Hn, Hdom, Hf, Hl, Hr, Hc.
    split; [exact Ha|]. split; [exact He|]. split; [exact Htk|].
    split; [rewrite Hx'; eauto|].
    split; [intros C; discriminate C|].
    intros _. split; [reflexivity|]. split; [exact Hn|].
    split; [rewrite Hdom; apply dom_insert_L|].
    exists x'. auto.
  -
    match type of H with
    | context [update_contact_info ?D0 _ ?R] => set (dc := D0) in H; set (rd := R) in H
    end.
    pose proof (PersonFacts.update_contact_info_tables dc (next_person_id d) rd) as HU.
    cbv zeta in HU.
    destruct (update_contact_info dc (next_person_id d) rd) as [d0 cu0] eqn:E. simpl in HU.
    simpl in H. injection H as <- <- <- <-.
    destruct HU as (Ha & He & Htk & Hn & Hdom & _ & Hx).
    edestruct Hx as (x' & Hx' & Hf & Hl & Hr & Hc).
    { subst dc. simpl. apply lookup_insert_eq. }
    subst dc. simpl in Ha, He, Htk, Hn, Hdom, Hf, Hl, Hr, Hc.
    split; [exact Ha|]. split; [exact He|]. split; [exact Htk|].
    split; [rewrite Hx'; eauto|].
    split; [intros C; discriminate C|].
    intros _. split; [reflexivity|]. split; [exact Hn|].
    split; [rewrite Hdom; apply dom_insert_L|].
    exists x'. auto.
Qed.

End CreateFacts.

(** X8: [find_or_create_person] leaves the attendance, event and token tables
    alone and returns a person id present in the resulting people table. When
    it reports an existing person ([was_created] false) the id was already
    present, the set of ids and the next id are unchanged; when it creates one,
    the id is the next free id, the counter advances by one, exactly that id is
    added, and the new person carries the cleaned CSV names and zero counters. *)
Theorem find_or_create_person_tables (en : env) (d : db) (row : csv_row)
  (pid : Z) (wc cu : bool) (d' : db) :
  find_or_create_person en d row = Ok (pid, wc, cu, d') ->
  attendance d' = attendance d /\ events d' = events d /\
  invitetokens d' = invitetokens d /\ is_Some (people d' !! pid) /\
  (wc = false -> is_Some (people d !! pid) /\ dom (people d') = dom (people d) /\
                 next_person_id d' = next_person_id d) /\
  (wc = true -> pid = next_person_id d /\ next_person_id d' = pid + 1 /\
                dom (people d') = {[pid]} ∪ dom (people d) /\
                exists x, people d' !! pid = Some x /\
                  first_name x = clean_name (r_first_name row) /\
                  last_name x = clean_name (r_last_name row) /\
                  referral_count x = 0 /\ event_attendance_count x = 0).
Proof.
  intros H. exact (CreateFacts.find_or_create_person_spec en d row pid wc cu d' H).
Qed.

Lemma find_or_create_person_tables_witness :
  exists d', find_or_create_person (mk_env 2025 10 (fun _ => None)) john_db nameless_row
             = Ok (3, true, true, d') /\
    dom (people d') = {[3]} ∪ dom (people john_db) /\ next_person_id d' = 4.
Proof.
  destruct (find_or_create_person (mk_env 2025 10 (fun _ => None)) john_db nameless_row)
    as [[[[pid wc] cu] d']|e] eqn:Hf.
  - pose proof (find_or_create_person_tables _ _ _ _ _ _ _ Hf) as T.
    assert (Hp : pid = 3 /\ wc = true /\ cu = true)
      by (vm_compute in Hf; injection Hf; intros; subst; auto).
    destruct Hp as (-> & -> & ->). exists d'. split; [reflexivity|].
    destruct T as (_ & _ & _ & _ & _ & T). destruct (T eq_refl) as (_ & Hn & Hd & _).
    split; [exact Hd|rewrite Hn; reflexivity].
  - vm_compute in Hf. discriminate Hf.
Defined.

(** X9: matching by email comes first. If the row's primary email (the school
    email column when truthy, the email column otherwise) finds an existing
    person with a non-zero id, [find_or_create_person] returns that id as an
    existing person, whatever the phone and name columns hold. *)
Theorem find_or_create_person_primary_email_first (en : env) (d : db) (row : csv_row) (i : Z) :
  find_person_by_email (people d)
    (if truthy (r_school_email row) then r_school_email row else r_email row) = Some i ->
  i <> 0 ->
  exists cu d', find_or_create_person en d row = Ok (i, false, cu, d').
Proof.
  intros Hf Hi. unfold find_or_create_person. cbv zeta.
  set (pe := if truthy (r_school_email row) then r_school_email row else r_email row) in *.
  assert (Htp : truthy pe = true).
  { destruct (truthy pe) eqn:T; [reflexivity|].
    unfold find_person_by_email in Hf. rewrite T in Hf. discriminate Hf. }
  assert (Hit : id_truthy (Some i) = true).
  { simpl. destruct (i =? 0) eqn:E; [apply Z.eqb_eq in E; contradiction|reflexivity]. }
  destruct (truthy pe && contains ".edu" (lower (default "" pe))) eqn:Hs.
  - rewrite Htp, Hf. repeat (rewrite Hit; cbn [negb andb]).
    simpl. rewrite (Hit : negb (i =? 0) = true).
    destruct (update_contact_info _ _ _). eexists _, _. reflexivity.
  - cbn [truthy id_truthy negb andb]. rewrite Htp. cbn [andb]. rewrite Hf.
    repeat (rewrite Hit; cbn [negb andb]).
    simpl. rewrite (Hit : negb (i =? 0) = true).
    destruct (update_contact_info _ _ _). eexists _, _. reflexivity.
Qed.

Lemma find_or_create_person_primary_email_first_witness :
  find_person_by_email (people ben_db)
    (if truthy (r_school_email benjamin_row) then r_school_email benjamin_row
     else r_email benjamin_row) = Some 1 /\
  exists cu d', find_or_create_person (mk_env 2025 10 (fun _ => None)) ben_db benjamin_row
                = Ok (1, false, cu, d').
Proof.
  assert (H1 : find_person_by_email (people ben_db)
                 (if truthy (r_school_email benjamin_row) then r_school_email benjamin_row
                  else r_email benjamin_row) = Some 1) by (vm_compute; reflexivity).
  split; [exact H1|].
  apply (find_or_create_person_primary_email_first (mk_env 2025 10 (fun _ => None)) ben_db benjamin_row 1 H1). lia.
Defined.

Module KeptFacts.

Lemma kept_refl (eid : Z) (a : gmap (Z * Z) attendance_row) : attendance_kept eid a a.
Proof.
  split.
  - intros k r H. exists r. auto 7.
  - intros k r' H1 H2. congruence.
Qed.

Lemma kept_trans (eid : Z) (a b c : gmap (Z * Z) attendance_row) :
  attendance_kept eid a b -> attendance_kept eid b c -> attendance_kept eid a c.
Proof.
  intros [H1 N1] [H2 N2]. split.
  - intros k r Ha. destruct (H1 k r Ha) as (r1 & Hb & E1 & E2 & E3 & E4 & E5).
    destruct (H2 k r1 Hb) as (r2 & Hc & F1 & F2 & F3 & F4 & F5).
    exists r2. split; [exact Hc|]. repeat split; congruence.
  - intros k r' Hc Ha. destruct (b !! k) as [rb|] eqn:Hb.
    + exact (N1 k rb Hb Ha).
    + exact (N2 k r' Hc Hb).
Qed.

Lemma kept_insert (a : gmap (Z * Z) attendance_row) (pid eid : Z) (r : attendance_row) :
  attendance_kept eid a (insert_attendance a pid eid r).
Proof.
  split.
  - intros k r0 Ha. exists r0. unfold insert_attendance.
    destruct (a !! (pid, eid)) eqn:Hp; [auto 7|].
    rewrite lookup_insert_ne by congruence. auto 7.
  - intros k r' Hi Ha.
    destruct (AttendanceFacts.insert_attendance_lookup a pid eid r k r' Hi) as [C|[-> _]].
    + congruence.
    + reflexivity.
Qed.

Lemma kept_recompute (eid : Z) (d : db) (pid : Z) :
  attendance_kept eid (attendance d) (attendance (recompute_first_event d pid)).
Proof.
  destruct (earliest None (checked_in_events d pid)) as [[e0 t0]|] eqn:He.
  - split.
    + intros k r Ha. rewrite (AttendanceFacts.recompute_first_event_lookup d pid e0 t0 k He), Ha.
      simpl. eexists. split; [reflexivity|]. destruct (k.1 =? pid); simpl; auto 7.
    + intros k r' Hr Ha.
      rewrite (AttendanceFacts.recompute_first_event_lookup d pid e0 t0 k He), Ha in Hr.
      discriminate Hr.
  - unfold recompute_first_event. rewrite He. apply kept_refl.
Qed.

Lemma kept_create_attendance_record (en : env) (d : db) (pid eid : Z) (row : csv_row) :
  attendance_kept eid (attendance d) (attendance (create_attendance_record en d pid eid row).2).
Proof.
  destruct (AttendanceFacts.create_attendance_record_shape en d pid eid row) as [r [_ Hd]].
  cbv zeta in Hd. rewrite Hd.
  apply (kept_trans eid _ (insert_attendance (attendance d) pid eid r)); [apply kept_insert|].
  destruct ((create_attendance_record en d pid eid row).1.2).
  - exact (kept_recompute eid (set_attendance (find_or_create_invite_token d eid
             (r_tracking_link row)).2 (insert_attendance (attendance d) pid eid r)) pid).
  - apply kept_refl.
Qed.

Lemma referral_step_attendance (d : db) (ci : bool) (tl ref : option string) (pid : Z)
  (d' : db) :
  referral_step d ci tl ref pid = Ok d' -> attendance d' = attendance d.
Proof.
  unfold referral_step. destruct ci.
  - destruct (resolve_referrer (people d) tl ref) as [rid|e]; simpl.
    + intros [= <-]. reflexivity.
    + intros C. discriminate C.
  - intros [= <-]. reflexivity.
Qed.

Lemma kept_process_row (en : env) (eid : Z) (d : db) (row : csv_row) (d' : db) :
  process_row en eid d row = Ok d' -> attendance_kept eid (attendance d) (attendance d').
Proof.
  unfold process_row.
  destruct (find_or_create_person en d row) as [[[[pid wc] cu] d1]|e] eqn:Hf; simpl;
    [|intros C; discriminate C].
  destruct (CreateFacts.find_or_create_person_spec en d row pid wc cu d1 Hf) as [Ha _].
  pose proof (kept_create_attendance_record en d1 pid eid row) as Hk.
  destruct (create_attendance_record en d1 pid eid row) as [[tl ci] d2]. simpl in Hk.
  intros Hr. apply referral_step_attendance in Hr. rewrite Hr, <- Ha. exact Hk.
Qed.

Lemma kept_process_rows (en : env) (eid : Z) (rows : list csv_row) (d d' : db) :
  process_rows en eid d rows = Ok d' -> attendance_kept eid (attendance d) (attendance d').
Proof.
  revert d. induction rows as [|row rows IH]; intros d; simpl.
  - intros [= <-]. apply kept_refl.
  - destruct (process_row en eid d row) as [d1|e] eqn:Hr; simpl; [|intros C; discriminate C].
    intros Hs. apply (kept_trans eid _ (attendance d1)).
    + exact (kept_process_row en eid d row d1 Hr).
    + exact (IH d1 Hs).
Qed.

End KeptFacts.

(** X10: [process_event_csv] deletes no attendance row and alters no stored
    value of an existing row other than [is_first_event]; every row it adds
    belongs to the event being imported. *)
Theorem process_event_csv_keeps_attendance (en : env) (eid : Z) (d : db)
  (rows : list csv_row) (d' : db) :
  process_event_csv en eid d rows = Ok d' ->
  (forall k r, attendance d !! k = Some r ->
     exists r', attendance d' !! k = Some r' /\ rsvp r' = rsvp r /\ approved r' = approved r /\
       checked_in r' = checked_in r /\ rsvp_datetime r' = rsvp_datetime r /\
       invite_token_id r' = invite_token_id r) /\
  (forall k r', attendance d' !! k = Some r' -> attendance d !! k = None -> k.2 = eid).
Proof.
  rewrite RerunFacts.process_event_csv_recount.
  destruct (process_rows en eid d rows) as [d1|e] eqn:Hp; simpl; [|intros C; discriminate C].
  intros [= <-]. rewrite RerunFacts.recount_attendance.
  exact (KeptFacts.kept_process_rows en eid rows d d1 Hp).
Qed.

Lemma process_event_csv_keeps_attendance_witness :
  exists d', process_event_csv (mk_env 2025 10 (fun _ => None)) 5 first_event_db [checkin_row]
             = Ok d' /\
    exists r', attendance d' !! (1, 7) = Some r' /\ checked_in r' = true /\ rsvp r' = true.
Proof.
  destruct (process_event_csv (mk_env 2025 10 (fun _ => None)) 5 first_event_db [checkin_row])
    as [d'|e] eqn:Hp.
  - exists d'. split; [reflexivity|].
    destruct (process_event_csv_keeps_attendance _ _ _ _ _ Hp) as [Hk _].
    destruct (Hk (1, 7) (mk_attendance true true true None true 1) eq_refl)
      as (r' & Hr & E1 & _ & E3 & _).
    exists r'. auto.
  - vm_compute in Hp. discriminate Hp.
Defined.

Module RecordFacts.

Lemma recompute_first_event_people (d : db) (pid : Z) :
  people (recompute_first_event d pid) = people d.
Proof.
  unfold recompute_first_event.
  destruct (earliest None (checked_in_events d pid)) as [[e0 t0]|]; reflexivity.
Qed.

Lemma recompute_first_event_other (d : db) (pid : Z) (k : Z * Z) :
  k.1 <> pid -> attendance (recompute_first_event d pid) !! k = attendance d !! k.
Proof.
  intros Hk. destruct (earliest None (checked_in_events d pid)) as [[e0 t0]|] eqn:He.
  - rewrite (AttendanceFacts.recompute_first_event_lookup d pid e0 t0 k He).
    destruct (k.1 =? pid) eqn:E; [apply Z.eqb_eq in E; contradiction|].
    destruct (attendance d !! k); reflexivity.
  - unfold recompute_first_event. rewrite He. reflexivity.
Qed.

Lemma recompute_first_event_is_Some (d : db) (pid : Z) (k : Z * Z) :
  is_Some (attendance d !! k) -> is_Some (attendance (recompute_first_event d pid) !! k).
Proof.
  intros Hs. destruct (earliest None (checked_in_events d pid)) as [[e0 t0]|] eqn:He.
  - rewrite (AttendanceFacts.recompute_first_event_lookup d pid e0 t0 k He).
    apply fmap_is_Some. exact Hs.
  - unfold recompute_first_event. rewrite He. exact Hs.
Qed.

End RecordFacts.

(** X11: [create_attendance_record] for person [pid] and event [eid] leaves
    the people and events tables alone, leaves a row for [(pid, eid)], and
    changes no attendance row of any other person. *)
Theorem create_attendance_record_scope (en : env) (d : db) (pid eid : Z) (row : csv_row) :
  let d' := (create_attendance_record en d pid eid row).2 in
  people d' = people d /\ events d' = events d /\
  is_Some (attendance d' !! (pid, eid)) /\
  (forall k, k.1 <> pid -> attendance d' !! k = attendance d !! k).
Proof.
  intros d'.
  destruct (AttendanceFacts.create_attendance_record_shape en d pid eid row) as [r [_ Hd]].
  cbv zeta in Hd. fold d' in Hd.
  destruct (AttendanceFacts.find_or_create_invite_token_tables d eid (r_tracking_link row))
    as [Hp [_ He]].
  set (d2 := set_attendance (find_or_create_invite_token d eid (r_tracking_link row)).2
               (insert_attendance (attendance d) pid eid r)) in Hd.
  assert (Hp2 : people d2 = people d) by exact Hp.
  assert (He2 : events d2 = events d) by exact He.
  assert (Hs2 : is_Some (attendance d2 !! (pid, eid))).
  { unfold d2, set_attendance, insert_attendance. simpl.
    destruct (attendance d !! (pid, eid)) eqn:E; [rewrite E; eauto|].
    rewrite lookup_insert_eq. eauto. }
  assert (Ho2 : forall k, k.1 <> pid -> attendance d2 !! k = attendance d !! k).
  { intros k Hk. unfold d2, set_attendance, insert_attendance. simpl.
    destruct (attendance d !! (pid, eid)); [reflexivity|].
    apply lookup_insert_ne. intros <-. apply Hk. reflexivity. }
  rewrite Hd. destruct ((create_attendance_record en d pid eid row).1.2).
  - rewrite RecordFacts.recompute_first_event_people, AttendanceFacts.recompute_first_event_events.
    split; [exact Hp2|]. split; [exact He2|]. split.
    + apply RecordFacts.recompute_first_event_is_Some. exact Hs2.
    + intros k Hk. rewrite RecordFacts.recompute_first_event_other by exact Hk. apply Ho2, Hk.
  - auto.
Qed.

(** X12: the flag returned by [update_contact_info] is true exactly when the
    call changes the people table, that is, when it fills at least one
    contact column that was [NULL]. *)
Theorem update_contact_info_flag_exact (d : db) (i : Z) (rd : row_data) :
  (update_contact_info d i rd).2 = true <-> people (update_contact_info d i rd).1 <> people d.
Proof.
  unfold update_contact_info. destruct (people d !! i) as [cur|] eqn:Hc; simpl.
  - destruct cur as [f l g cy sc pn se pe ph rc ec]. destruct rd as [rf rl rse rpe rph rg rs ry].
    simpl.
    destruct se, pe, ph, rse, rpe, rph; simpl; split; intros H;
      first
        [ discriminate H
        | reflexivity
        | let Heq := fresh in
          intros Heq; apply (f_equal (lookup i)) in Heq;
          rewrite lookup_insert_eq, Hc in Heq; congruence
        | exfalso; apply H; apply insert_id; exact Hc ].
  - split; [intros C; discriminate C|]. intros C. exfalso. apply C. reflexivity.
Qed.

(** X13: [update_contact_info] is idempotent: calling it a second time with
    the same row data changes nothing and reports no update. *)
Theorem update_contact_info_idempotent (d : db) (i : Z) (rd : row_data) :
  let d1 := (update_contact_info d i rd).1 in
  update_contact_info d1 i rd = (d1, false).
Proof.
  intros d1. unfold d1, update_contact_info.
  destruct (people d !! i) as [cur|] eqn:Hc; simpl.
  - rewrite lookup_insert_eq.
    destruct cur as [f l g cy sc pn se pe ph rc ec]. destruct rd as [rf rl rse rpe rph rg rs ry].
    simpl. unfold set_people. simpl.
    destruct se, pe, ph, rse, rpe, rph; simpl; rewrite insert_insert_eq; reflexivity.
  - rewrite Hc. reflexivity.
Qed.

(** X14: the closing recount of [process_event_csv] (the event's attendance
    count, then the people's counts) is idempotent: recounting an already
    recounted database changes nothing. *)
Theorem recount_aggregates_idempotent (d : db) (eid : Z) :
  recount_aggregates (recount_aggregates d eid) eid = recount_aggregates d eid.
Proof.
  unfold recount_aggregates, update_person_attendance_counts, update_event_attendance_count.
  unfold set_people, set_events. simpl. f_equal.
  - apply map_eq. intros q. rewrite !map_lookup_imap.
    destruct (people d !! q) as [x|]; simpl; [|reflexivity].
    destruct (existsb _ _) eqn:E; simpl; rewrite ?E; reflexivity.
  - rewrite alter_alter_eq. apply alter_ext. intros ev _. reflexivity.
Qed.

Module CountFacts.

Lemma attended_present (a : gmap (Z * Z) attendance_row) (q eid : Z) :
  is_Some (a !! (q, eid)) ->
  existsb (fun '(k, _) => (k.1 =? q) && (k.2 =? eid)) (map_to_list a) = true.
Proof.
  intros [r Hr]. apply existsb_exists. exists ((q, eid), r). split.
  - apply list_elem_of_In. apply elem_of_map_to_list. exact Hr.
  - simpl. rewrite !Z.eqb_refl. reflexivity.
Qed.

End CountFacts.

(** X15: after a successful [process_event_csv] for event [eid], the event's
    attendance count is the number of checked-in rows of [eid], and every
    person with a row at [eid] has as attendance count the number of their
    checked-in rows over all events. *)
Theorem process_event_csv_counts_consistent (en : env) (eid : Z) (d : db)
  (rows : list csv_row) (d' : db) :
  process_event_csv en eid d rows = Ok d' ->
  (forall ev, events d' !! eid = Some ev ->
     event_attendance ev = count_checked_in (attendance d') (fun k => k.2 =? eid)) /\
  (forall q x, people d' !! q = Some x -> is_Some (attendance d' !! (q, eid)) ->
     event_attendance_count x = count_checked_in (attendance d') (fun k => k.1 =? q)).
Proof.
  rewrite RerunFacts.process_event_csv_recount.
  destruct (process_rows en eid d rows) as [d1|e]; simpl; [|intros C; discriminate C].
  intros [= <-]. rewrite RerunFacts.recount_attendance. split.
  - intros ev Hev. pose proof (RerunFacts.recount_event d1 eid) as H.
    rewrite Hev in H. simpl in H.
    destruct (events d1 !! eid); simpl in H; [|discriminate H].
    injection H as H. exact H.
  - intros q x Hx Hs. pose proof (RerunFacts.recount_person d1 eid q) as H.
    rewrite Hx, CountFacts.attended_present in H by exact Hs. simpl in H.
    destruct (people d1 !! q); simpl in H; [|discriminate H].
    injection H as H. exact H.
Qed.

Lemma process_event_csv_counts_consistent_witness :
  exists d', process_event_csv (mk_env 2025 10 (fun _ => None)) 5 first_event_db [checkin_row]
             = Ok d' /\
    exists x, people d' !! 1 = Some x /\
      event_attendance_count x = count_checked_in (attendance d') (fun k => k.1 =? 1).
Proof.
  destruct (process_event_csv (mk_env 2025 10 (fun _ => None)) 5 first_event_db [checkin_row])
    as [d'|e] eqn:Hp; [|vm_compute in Hp; discriminate Hp].
  exists d'. split; [reflexivity|].
  destruct (process_event_csv_counts_consistent _ _ _ _ _ Hp) as [_ Hc].
  vm_compute in Hp. injection Hp as Hp. subst d'.
  eexists. split; [reflexivity|]. apply Hc; [reflexivity|]. eexists. reflexivity.
Defined.

Module GrowFacts.

Lemma grow_refl (eid : Z) (d : db) : tables_grow eid d d.
Proof.
  split; [reflexivity|]. split; [reflexivity|]. split; [|auto].
  exists []. rewrite app_nil_r. split; [reflexivity|constructor].
Qed.

Lemma grow_trans (eid : Z) (d1 d2 d3 : db) :
  tables_grow eid d1 d2 -> tables_grow eid d2 d3 -> tables_grow eid d1 d3.
Proof.
  intros (E1 & P1 & (ts1 & T1 & F1) & W1) (E2 & P2 & (ts2 & T2 & F2) & W2).
  split; [congruence|]. split; [etransitivity; eassumption|]. split; [|auto].
  exists (ts1 ++ ts2)%list. rewrite T2, T1, app_assoc. split; [reflexivity|].
  apply Forall_app. auto.
Qed.

Lemma grow_find_or_create_person (eid : Z) (en : env) (d : db) (row : csv_row)
  (pid : Z) (wc cu : bool) (d' : db) :
  find_or_create_person en d row = Ok (pid, wc, cu, d') -> tables_grow eid d d'.
Proof.
  intros H.
  destruct (CreateFacts.find_or_create_person_spec en d row pid wc cu d' H)
    as (_ & He & Ht & _ & Hf & Hc).
  split; [exact He|]. split.
  - destruct wc.
    + destruct (Hc eq_refl) as (_ & _ & Hd & _). rewrite Hd. set_solver.
    + destruct (Hf eq_refl) as (_ & Hd & _). rewrite Hd. reflexivity.
  - split; [|rewrite Ht; auto]. exists []. rewrite Ht, app_nil_r. split; [reflexivity|constructor].
Qed.

Lemma grow_invite_token (d : db) (eid : Z) (tl : option string) :
  tables_grow eid d (find_or_create_invite_token d eid tl).2.
Proof.
  split; [|split; [|split]].
  - apply AttendanceFacts.find_or_create_invite_token_tables.
  - rewrite (proj1 (AttendanceFacts.find_or_create_invite_token_tables d eid tl)). reflexivity.
  - unfold find_or_create_invite_token.
    destruct (is_generic _); simpl; destruct (lookup_token _ _ _); simpl.
    all: first [ exists []; rewrite app_nil_r; split; [reflexivity|constructor]
               | eexists; split; [reflexivity|]; constructor; [reflexivity|constructor] ].
  - intros W. exact (proj1 (TokenFacts.find_or_create_invite_token_step d eid tl W)).
Qed.

Lemma grow_set_attendance (eid : Z) (d : db) (a : gmap (Z * Z) attendance_row) :
  tables_grow eid d (set_attendance d a).
Proof. exact (grow_refl eid d). Qed.

Lemma grow_recompute (eid : Z) (d : db) (pid : Z) :
  tables_grow eid d (recompute_first_event d pid).
Proof.
  unfold recompute_first_event.
  destruct (earliest None (checked_in_events d pid)) as [[e0 t0]|];
    [apply grow_set_attendance|apply grow_refl].
Qed.

Lemma grow_create_attendance_record (en : env) (d : db) (pid eid : Z) (row : csv_row) :
  tables_grow eid d (create_attendance_record en d pid eid row).2.
Proof.
  destruct (AttendanceFacts.create_attendance_record_shape en d pid eid row) as [r [_ Hd]].
  cbv zeta in Hd. rewrite Hd.
  set (d1 := (find_or_create_invite_token d eid (r_tracking_link row)).2).
  assert (G : tables_grow eid d (set_attendance d1 (insert_attendance (attendance d) pid eid r))).
  { apply (grow_trans eid d d1); [apply grow_invite_token|apply grow_set_attendance]. }
  destruct ((create_attendance_record en d pid eid row).1.2); [|exact G].
  eapply grow_trans; [exact G|apply grow_recompute].
Qed.

Lemma grow_referral_step (eid : Z) (d : db) (ci : bool) (tl ref : option string) (pid : Z)
  (d' : db) :
  referral_step d ci tl ref pid = Ok d' -> tables_grow eid d d'.
Proof.
  unfold referral_step. destruct ci; [|intros [= <-]; apply grow_refl].
  destruct (resolve_referrer (people d) tl ref) as [rid|e]; simpl; [|intros C; discriminate C].
  intros [= <-]. split; [reflexivity|]. split; [|split; [|auto]].
  - unfold credit_referral. simpl.
    destruct rid as [r|]; [destruct (id_truthy (Some r) && negb (r =? pid))|];
      [rewrite dom_alter_L| |]; reflexivity.
  - exists []. rewrite app_nil_r. split; [reflexivity|constructor].
Qed.

Lemma grow_process_row (en : env) (eid : Z) (d : db) (row : csv_row) (d' : db) :
  process_row en eid d row = Ok d' -> tables_grow eid d d'.
Proof.
  unfold process_row.
  destruct (find_or_create_person en d row) as [[[[pid wc] cu] d1]|e] eqn:Hf; simpl;
    [|intros C; discriminate C].
  pose proof (grow_find_or_create_person eid en d row pid wc cu d1 Hf) as G1.
  pose proof (grow_create_attendance_record en d1 pid eid row) as G2.
  destruct (create_attendance_record en d1 pid eid row) as [[tl ci] d2]. simpl in G2.
  intros Hr. apply (grow_referral_step eid) in Hr.
  eapply grow_trans; [exact G1|]. eapply grow_trans; [exact G2|exact Hr].
Qed.

Lemma grow_process_rows (en : env) (eid : Z) (rows : list csv_row) (d d' : db) :
  process_rows en eid d rows = Ok d' -> tables_grow eid d d'.
Proof.
  revert d. induction rows as [|row rows IH]; intros d; simpl.
  - intros [= <-]. apply grow_refl.
  - destruct (process_row en eid d row) as [d1|e] eqn:Hr; simpl; [|intros C; discriminate C].
    intros Hs. eapply grow_trans; [exact (grow_process_row en eid d row d1 Hr)|exact (IH d1 Hs)].
Qed.

Lemma recount_people_dom (d : db) (eid : Z) :
  dom (people (recount_aggregates d eid)) = dom (people d).
Proof.
  apply set_eq. intros q. rewrite !elem_of_dom.
  unfold recount_aggregates, update_person_attendance_counts, update_event_attendance_count.
  simpl. rewrite map_lookup_imap.
  destruct (people d !! q); simpl; split; intros H; try exact H; eauto; destruct H; discriminate.
Qed.

End GrowFacts.

(** X16: a successful [process_event_csv] for event [eid] changes no other
    event and keeps the start time of [eid], removes no person, and keeps the
    invite-token table as a prefix: the tokens it adds come after the
    existing ones and all belong to [eid]. *)
Theorem process_event_csv_preserves_history (en : env) (eid : Z) (d : db)
  (rows : list csv_row) (d' : db) :
  process_event_csv en eid d rows = Ok d' ->
  (forall e, e <> eid -> events d' !! e = events d !! e) /\
  start_datetime <$> events d' !! eid = start_datetime <$> events d !! eid /\
  dom (people d) ⊆ dom (people d') /\
  exists ts, invitetokens d' = (invitetokens d ++ ts)%list /\
             Forall (fun t => tok_event_id t = eid) ts.
Proof.
  rewrite RerunFacts.process_event_csv_recount.
  destruct (process_rows en eid d rows) as [d1|e] eqn:Hp; simpl; [|intros C; discriminate C].
  intros [= <-].
  destruct (GrowFacts.grow_process_rows en eid rows d d1 Hp) as (He & Hd & Ht & _).
  split; [|split; [|split]].
  - intros e Hne. unfold recount_aggregates, update_person_attendance_counts,
      update_event_attendance_count. simpl.
    rewrite lookup_alter_ne by congruence. rewrite He. reflexivity.
  - unfold recount_aggregates, update_person_attendance_counts,
      update_event_attendance_count. simpl.
    rewrite lookup_alter_eq, He. destruct (events d !! eid); reflexivity.
  - rewrite GrowFacts.recount_people_dom. exact Hd.
  - exact Ht.
Qed.

Lemma process_event_csv_preserves_history_witness :
  exists d', process_event_csv (mk_env 2025 10 (fun _ => None)) 5 first_event_db [checkin_row]
             = Ok d' /\
    events d' !! 7 = events first_event_db !! 7 /\ dom (people first_event_db) ⊆ dom (people d').
Proof.
  destruct (process_event_csv (mk_env 2025 10 (fun _ => None)) 5 first_event_db [checkin_row])
    as [d'|e] eqn:Hp; [|vm_compute in Hp; discriminate Hp].
  exists d'. split; [reflexivity|].
  destruct (process_event_csv_preserves_history _ _ _ _ _ Hp) as (He & _ & Hd & _).
  split; [apply He; lia|exact Hd].
Defined.

(** X17: a successful [process_event_csv] keeps the invite-token registry
    well formed: if the [(event_id, value)] pairs are unique and every row
    has the registry's shape before the import, the same holds after it. *)
Theorem process_event_csv_tokens_wf (en : env) (eid : Z) (d : db)
  (rows : list csv_row) (d' : db) :
  process_event_csv en eid d rows = Ok d' ->
  tokens_wf (invitetokens d) -> tokens_wf (invitetokens d').
Proof.
  rewrite RerunFacts.process_event_csv_recount.
  destruct (process_rows en eid d rows) as [d1|e] eqn:Hp; simpl; [|intros C; discriminate C].
  intros [= <-].
  destruct (GrowFacts.grow_process_rows en eid rows d d1 Hp) as (_ & _ & _ & Hw).
  exact Hw.
Qed.

Lemma process_event_csv_tokens_wf_witness :
  exists d', process_event_csv (mk_env 2025 10 (fun _ => None)) 5 first_event_db [checkin_row]
             = Ok d' /\ tokens_wf (invitetokens first_event_db) /\ tokens_wf (invitetokens d').
Proof.
  destruct (process_event_csv (mk_env 2025 10 (fun _ => None)) 5 first_event_db [checkin_row])
    as [d'|e] eqn:Hp; [|vm_compute in Hp; discriminate Hp].
  assert (W : tokens_wf (invitetokens first_event_db)).
  { split; [constructor|constructor]. }
  exists d'. split; [reflexivity|]. split; [exact W|].
  exact (process_event_csv_tokens_wf _ _ _ _ _ Hp W).
Defined.

Module DifflibFacts.

Lemma run_len_le_j (a b : list ascii) (alo blo i j : nat) :
  (Difflib.run_len a b alo blo i j <= S j)%nat.
Proof.
  revert j. induction i as [|i IH]; intros j; simpl;
    destruct (Ascii.eqb _ _); try lia.
  destruct j as [|j]; [lia|].
  destruct ((alo <=? i)%nat && (blo <=? j)%nat); [|lia].
  specialize (IH j). lia.
Qed.

Lemma run_len_le_i (a b : list ascii) (alo blo i j : nat) :
  (Difflib.run_len a b alo blo i j <= S i)%nat.
Proof.
  revert j. induction i as [|i IH]; intros j; simpl;
    destruct (Ascii.eqb _ _); try lia.
  destruct j as [|j]; [lia|].
  destruct ((alo <=? i)%nat && (blo <=? j)%nat); [|lia].
  specialize (IH j). lia.
Qed.

Lemma run_len_diag (a : list ascii) (i : nat) : Difflib.run_len a a 0 0 i i = S i.
Proof.
  induction i as [|i IH]; simpl; rewrite Ascii.eqb_refl; [reflexivity|].
  simpl. rewrite IH. reflexivity.
Qed.

Lemma fold_bound {A : Type} (f : nat * nat * nat -> A -> nat * nat * nat) (xs : list A)
  (acc : nat * nat * nat) (B : nat) :
  (forall acc x, In x xs -> (acc.2 <= B)%nat -> ((f acc x).2 <= B)%nat) ->
  (acc.2 <= B)%nat -> ((fold_left f xs acc).2 <= B)%nat.
Proof.
  revert acc. induction xs as [|x xs IH]; intros acc Hf Hb; simpl; [exact Hb|].
  apply IH.
  - intros acc' y Hy. apply Hf. right. exact Hy.
  - apply Hf; [left; reflexivity|exact Hb].
Qed.

Lemma find_longest_match_self (a : list ascii) :
  (0 < List.length a)%nat ->
  Difflib.find_longest_match a a 0 (List.length a) 0 (List.length a) = (0, 0, List.length a)%nat.
Proof.
  intros Hn. destruct (List.length a) as [|m] eqn:Hl; [lia|]. clear Hn.
  unfold Difflib.find_longest_match. rewrite Nat.sub_0_r, seq_S, fold_left_app, Nat.add_0_l.
  match goal with
  | |- fold_left ?F [m] (fold_left ?F (seq 0 m) ?acc0) = _ =>
      assert (H1 : ((fold_left F (seq 0 m) acc0).2 <= m)%nat);
      [ apply fold_bound; [|simpl; lia]
      | destruct (fold_left F (seq 0 m) acc0) as [[bi bj] bs]; simpl in H1 ]
  end.
  - intros acc i Hi Hb. apply in_seq in Hi.
    apply fold_bound; [|exact Hb].
    intros [[ci cj] cs] j _ Hc. simpl in Hc |- *.
    pose proof (run_len_le_i a a 0 0 i j).
    destruct (cs <? Difflib.run_len a a 0 0 i j)%nat; simpl; [|lia].
    etransitivity; [apply run_len_le_i|lia].
  - simpl. rewrite fold_left_app.
    match goal with
    | |- fold_left ?G [m] (fold_left ?G (seq 0 m) ?acc0) = _ =>
        assert (H2 : ((fold_left G (seq 0 m) acc0).2 <= m)%nat);
        [ apply fold_bound; [|exact H1]
        | destruct (fold_left G (seq 0 m) acc0) as [[ci cj] cs]; simpl in H2 ]
    end.
    + intros [[di dj] ds] j Hj Hd. apply in_seq in Hj. simpl in Hd |- *.
      pose proof (run_len_le_j a a 0 0 m j).
      destruct (ds <? Difflib.run_len a a 0 0 m j)%nat; simpl; lia.
    + simpl. rewrite run_len_diag.
      destruct (cs <? S m)%nat eqn:E; [|apply Nat.ltb_ge in E; lia].
      replace (m + 1 - S m)%nat with 0%nat by lia. reflexivity.
Qed.

Lemma fold_inv {A : Type} (P : nat * nat * nat -> Prop)
  (f : nat * nat * nat -> A -> nat * nat * nat) (xs : list A) (acc : nat * nat * nat) :
  (forall acc x, In x xs -> P acc -> P (f acc x)) -> P acc -> P (fold_left f xs acc).
Proof.
  revert acc. induction xs as [|x xs IH]; intros acc Hf Hp; simpl; [exact Hp|].
  apply IH.
  - intros acc' y Hy. apply Hf. right. exact Hy.
  - apply Hf; [left; reflexivity|exact Hp].
Qed.

Lemma run_len_le_alo (a b : list ascii) (alo blo i j : nat) :
  (alo <= i)%nat -> (Difflib.run_len a b alo blo i j <= i + 1 - alo)%nat.
Proof.
  revert j. induction i as [|i IH]; intros j Hi; simpl;
    destruct (Ascii.eqb _ _); try lia.
  destruct j as [|j]; [lia|].
  destruct (alo <=? i)%nat eqn:E; simpl; [|lia].
  destruct (blo <=? j)%nat; [|lia].
  apply Nat.leb_le in E. specialize (IH j E). lia.
Qed.

Lemma run_len_le_blo (a b : list ascii) (alo blo i j : nat) :
  (blo <= j)%nat -> (Difflib.run_len a b alo blo i j <= j + 1 - blo)%nat.
Proof.
  revert j. induction i as [|i IH]; intros j Hj; simpl;
    destruct (Ascii.eqb _ _); try lia.
  destruct j as [|j]; [lia|].
  destruct (alo <=? i)%nat; simpl; [|lia].
  destruct (blo <=? j)%nat eqn:E; [|lia].
  apply Nat.leb_le in E. specialize (IH j E). lia.
Qed.

Lemma find_longest_match_bounds (a b : list ascii) (alo ahi blo bhi i j k : nat) :
  Difflib.find_longest_match a b alo ahi blo bhi = (i, j, k) ->
  k = 0%nat \/ ((alo <= i)%nat /\ (i + k <= ahi)%nat /\ (blo <= j)%nat /\ (j + k <= bhi)%nat).
Proof.
  intros Hm.
  set (P := fun acc : nat * nat * nat =>
              acc.2 = 0%nat \/ ((alo <= acc.1.1)%nat /\ (acc.1.1 + acc.2 <= ahi)%nat /\
                                (blo <= acc.1.2)%nat /\ (acc.1.2 + acc.2 <= bhi)%nat)).
  assert (HP : P (Difflib.find_longest_match a b alo ahi blo bhi)).
  { unfold Difflib.find_longest_match. apply fold_inv; [|left; reflexivity].
    intros acc i' Hi Hacc. apply in_seq in Hi.
    apply fold_inv; [|exact Hacc].
    intros [[bi bj] bs] j' Hj Hb. apply in_seq in Hj. unfold P in Hb |- *. simpl in Hb |- *.
    destruct (bs <? Difflib.run_len a b alo blo i' j')%nat eqn:E; [|exact Hb].
    pose proof (run_len_le_alo a b alo blo i' j' ltac:(lia)).
    pose proof (run_len_le_blo a b alo blo i' j' ltac:(lia)).
    right. simpl. lia. }
  rewrite Hm in HP. exact HP.
Qed.

Lemma matched_total_le (fuel : nat) (a b : list ascii) (alo ahi blo bhi : nat) :
  (alo <= ahi)%nat -> (blo <= bhi)%nat ->
  (Difflib.matched_total fuel a b alo ahi blo bhi <= ahi - alo)%nat /\
  (Difflib.matched_total fuel a b alo ahi blo bhi <= bhi - blo)%nat.
Proof.
  revert alo ahi blo bhi. induction fuel as [|f IH]; intros alo ahi blo bhi Ha Hb; simpl; [lia|].
  destruct (Difflib.find_longest_match a b alo ahi blo bhi) as [[i j] k] eqn:Hf.
  pose proof (find_longest_match_bounds a b alo ahi blo bhi i j k Hf) as Hm.
  destruct (k =? 0)%nat eqn:Ek; [lia|].
  apply Nat.eqb_neq in Ek. destruct Hm as [C|(H1 & H2 & H3 & H4)]; [contradiction|].
  destruct ((alo <? i)%nat && (blo <? j)%nat) eqn:El.
  - destruct ((i + k <? ahi)%nat && (j + k <? bhi)%nat) eqn:Er.
    + destruct (IH alo i blo j ltac:(lia) ltac:(lia)).
      destruct (IH (i + k) ahi (j + k) bhi ltac:(lia) ltac:(lia))%nat. lia.
    + destruct (IH alo i blo j ltac:(lia) ltac:(lia)). lia.
  - destruct ((i + k <? ahi)%nat && (j + k <? bhi)%nat) eqn:Er.
    + destruct (IH (i + k) ahi (j + k) bhi ltac:(lia) ltac:(lia))%nat. lia.
    + lia.
Qed.

End DifflibFacts.

(** X18: [fuzzy_ratio] ([SequenceMatcher(None, a, b).ratio()]) of a string
    with itself is 1. *)
Theorem fuzzy_ratio_self (s : string) : (Difflib.ratio s s == 1)%Q.
Proof.
  unfold Difflib.ratio.
  destruct (List.length (list_ascii_of_string s)) as [|m] eqn:Hl.
  - reflexivity.
  - simpl (S m + S m =? 0)%nat. cbv iota.
    change (Difflib.matched_total (S (S m)) (list_ascii_of_string s) (list_ascii_of_string s)
              0 (S m) 0 (S m)) with
      (let '(i, j, k) := Difflib.find_longest_match (list_ascii_of_string s)
                           (list_ascii_of_string s) 0 (S m) 0 (S m) in
       if (k =? 0)%nat then O
       else (k
             + (if (0 <? i)%nat && (0 <? j)%nat
                then Difflib.matched_total (S m) (list_ascii_of_string s) (list_ascii_of_string s) 0 i 0 j else 0)
             + (if (i + k <? S m)%nat && (j + k <? S m)%nat
                then Difflib.matched_total (S m) (list_ascii_of_string s) (list_ascii_of_string s) (i + k) (S m) (j + k) (S m) else 0))%nat).
    rewrite <- Hl, DifflibFacts.find_longest_match_self by lia. rewrite Hl.
    simpl (S m =? 0)%nat. cbv iota.
    replace ((0 <? 0)%nat && (0 <? 0)%nat) with false by reflexivity.
    replace ((0 + S m <? S m)%nat && (0 + S m <? S m)%nat) with false
      by (rewrite Nat.add_0_l, Nat.ltb_irrefl; reflexivity).
    rewrite !Nat.add_0_r.
    unfold Qeq. simpl.
    rewrite <- (positive_nat_Z (Pos.of_nat (S (m + S m)))), Nat2Pos.id by lia. lia.
Qed.

(** X19: [fuzzy_ratio] always lies between 0 and 1. *)
Theorem fuzzy_ratio_bounds (s1 s2 : string) :
  (0 <= Difflib.ratio s1 s2 <= 1)%Q.
Proof.
  unfold Difflib.ratio.
  set (a := list_ascii_of_string s1). set (b := list_ascii_of_string s2).
  destruct (List.length a + List.length b =? 0)%nat eqn:E.
  - split; discriminate.
  - apply Nat.eqb_neq in E.
    destruct (DifflibFacts.matched_total_le (S (List.length a)) a b 0 (List.length a) 0
                (List.length b) ltac:(lia) ltac:(lia)) as [H1 H2].
    set (mt := Difflib.matched_total (S (List.length a)) a b 0 (List.length a) 0
                 (List.length b)) in *.
    unfold Qle. simpl.
    rewrite <- (positive_nat_Z (Pos.of_nat (List.length a + List.length b))), Nat2Pos.id by lia.
    split; lia.
Qed.

(* ------------------------------------------------------------------ *)
(** ** Re-running a row set *)

Module RerunRowFacts.

Lemma update_contact_info_counts (d : db) (i : Z) (rd : row_data) (q : Z) :
  event_attendance_count <$> people (update_contact_info d i rd).1 !! q =
  event_attendance_count <$> people d !! q.
Proof.
  unfold update_contact_info. destruct (people d !! i) as [cur|] eqn:Hc; simpl; [|reflexivity].
  destruct (decide (q = i)) as [->|Hne].
  - rewrite lookup_insert_eq, Hc. reflexivity.
  - rewrite lookup_insert_ne by congruence. reflexivity.
Qed.

Lemma update_names_if_substring_counts (d : db) (i : Z) (sf sl inf il : option string) (q : Z) :
  event_attendance_count <$> people (update_names_if_substring d i sf sl inf il) !! q =
  event_attendance_count <$> people d !! q.
Proof.
  unfold update_names_if_substring.
  destruct (is_none _ && is_none _); simpl; [reflexivity|].
  destruct (decide (q = i)) as [->|Hne].
  - rewrite lookup_alter_eq. destruct (people d !! i); reflexivity.
  - rewrite lookup_alter_ne by congruence. reflexivity.
Qed.

(** An existing person's lookup changes names and contact columns only. *)
Lemma find_or_create_person_counts (en : env) (d : db) (row : csv_row)
  (pid : Z) (cu : bool) (d' : db) (q : Z) :
  find_or_create_person en d row = Ok (pid, false, cu, d') ->
  event_attendance_count <$> people d' !! q = event_attendance_count <$> people d !! q.
Proof.
  intros H. unfold find_or_create_person in H. cbv zeta in H.
  match type of H with
  | (match ?E with (_, _) => _ end) = _ => destruct E as [sef pef]
  end.
  match type of H with
  | mbind ?K ?M = _ => destruct M as [p4|e]; [|discriminate H]
  end.
  simpl in H.
  destruct p4 as [i|]; [destruct (id_truthy (Some i))|].
  - match type of H with
    | context [update_contact_info d i ?R] => set (rd := R) in H
    end.
    pose proof (update_contact_info_counts d i rd q) as HU.
    destruct (update_contact_info d i rd) as [d0 cu0]. simpl in HU.
    injection H as <- _ Hd'. rewrite <- Hd'.
    match goal with
    | |- context [if ?b then _ else d0] => destruct b; [|exact HU]
    end.
    destruct (people d0 !! i); [|exact HU].
    rewrite update_names_if_substring_counts. exact HU.
  - match type of H with
    | context [update_contact_info ?D0 ?I ?R] =>
        destruct (update_contact_info D0 I R) as [d0 cu0]
    end.
    simpl in H. congruence.
  - match type of H with
    | context [update_contact_info ?D0 ?I ?R] =>
        destruct (update_contact_info D0 I R) as [d0 cu0]
    end.
    simpl in H. congruence.
Qed.

Lemma credit_referral_counts (ps : gmap Z person) (r : option Z) (pid q : Z) :
  event_attendance_count <$> credit_referral ps r pid !! q =
  event_attendance_count <$> ps !! q.
Proof.
  unfold credit_referral. destruct r as [r|]; [|reflexivity].
  destruct (id_truthy (Some r) && negb (r =? pid)); [|reflexivity].
  destruct (decide (q = r)) as [->|Hne].
  - rewrite lookup_alter_eq. destruct (ps !! r); reflexivity.
  - rewrite lookup_alter_ne by congruence. reflexivity.
Qed.

Lemma referral_step_counts (d : db) (ci : bool) (tl ref : option string) (pid : Z) (d' : db) :
  referral_step d ci tl ref pid = Ok d' ->
  attendance d' = attendance d /\ events d' = events d /\
  (forall q, event_attendance_count <$> people d' !! q =
             event_attendance_count <$> people d !! q).
Proof.
  unfold referral_step. destruct ci.
  - destruct (resolve_referrer (people d) tl ref) as [rid|e]; simpl.
    + intros [= <-]. simpl. split; [reflexivity|split; [reflexivity|]].
      intros q. apply credit_referral_counts.
    + intros C. discriminate C.
  - intros [= <-]. auto.
Qed.

(** What a state keeps across a row whose person already attends: the
    [checked_in] values (and so the set of rows) of [attendance], the events
    and each person's [event_attendance_count]. *)
Lemma process_row_present (en : env) (eid : Z) (d : db) (row : csv_row) (d' : db) :
  process_row en eid d row = Ok d' -> resolves_to_attendee en eid d row = true ->
  checked_in <$> attendance d' = checked_in <$> attendance d /\ events d' = events d /\
  (forall q, event_attendance_count <$> people d' !! q =
             event_attendance_count <$> people d !! q).
Proof.
  unfold process_row, resolves_to_attendee.
  destruct (find_or_create_person en d row) as [[[[pid wc] cu] d1]|e] eqn:Hf; simpl;
    [|intros C; discriminate C].
  intros Hr Hres. apply andb_prop in Hres as [Hwc Hatt].
  destruct wc; [discriminate Hwc|].
  destruct (CreateFacts.find_or_create_person_spec en d row pid false cu d1 Hf) as [Ha [He _]].
  pose proof (find_or_create_person_counts en d row pid cu d1) as Hc1.
  pose proof (RerunFacts.create_attendance_record_present en d1 pid eid row) as HP.
  cbv zeta in HP. destruct HP as [Hc [Hp Hev]].
  { rewrite Ha. unfold is_some, is_none in Hatt.
    destruct (attendance d !! (pid, eid)); [eexists; reflexivity|discriminate Hatt]. }
  destruct (create_attendance_record en d1 pid eid row) as [[tl ci] d2]. simpl in Hc, Hp, Hev.
  apply referral_step_counts in Hr as (Ha3 & He3 & Hc3).
  split; [rewrite Ha3, Hc, Ha; reflexivity|]. split; [congruence|].
  intros q. rewrite Hc3, Hp. exact (Hc1 q Hf).
Qed.

Lemma process_rows_present (en : env) (eid : Z) (rows : list csv_row) (d d' : db) :
  process_rows en eid d rows = Ok d' -> rows_resolve_to_attendees en eid d rows = true ->
  checked_in <$> attendance d' = checked_in <$> attendance d /\ events d' = events d /\
  (forall q, event_attendance_count <$> people d' !! q =
             event_attendance_count <$> people d !! q).
Proof.
  revert d. induction rows as [|row rows IH]; intros d; simpl.
  - intros [= <-] _. auto.
  - destruct (process_row en eid d row) as [d1|e] eqn:Hr; simpl;
      [|intros C; discriminate C].
    intros Hs Hres. apply andb_prop in Hres as [H1 H2].
    destruct (process_row_present en eid d row d1 Hr H1) as (Hc1 & He1 & Hp1).
    destruct (IH d1 Hs H2) as (Hc2 & He2 & Hp2).
    split; [congruence|]. split; [congruence|]. intros q. rewrite Hp2. apply Hp1.
Qed.

End RerunRowFacts.

(** C2 (amended): inserting an attendance record for a pair that already
    has a row leaves the table unchanged.  Let [process_event_csv] run a row
    set on event [eid] from [d0], ending in [d1], and run the same rows
    again from [d1], ending in [d2].  If on the re-run
    [find_or_create_person] resolves each row to a person it did not create
    and who already has an attendance row for the event, then the re-run
    creates no attendance row, changes no [checked_in] value, and leaves
    [event.attendance] of the event and every person's
    [event_attendance_count] at their values after the first run. *)
Theorem attendance_rerun_stable (en : env) (eid : Z) (d0 : db) (rows : list csv_row)
  (d1 d2 : db) :
  process_event_csv en eid d0 rows = Ok d1 ->
  process_event_csv en eid d1 rows = Ok d2 ->
  rows_resolve_to_attendees en eid d1 rows = true ->
  (forall a pid e r, is_Some (a !! (pid, e)) -> insert_attendance a pid e r = a) /\
  dom (attendance d2) = dom (attendance d1) /\
  checked_in <$> attendance d2 = checked_in <$> attendance d1 /\
  event_attendance <$> events d2 !! eid = event_attendance <$> events d1 !! eid /\
  (forall q, event_attendance_count <$> people d2 !! q =
             event_attendance_count <$> people d1 !! q).
Proof.
  intros H1 H2 Hres.
  rewrite RerunFacts.process_event_csv_recount in H1, H2.
  destruct (process_rows en eid d0 rows) as [d0'|e] eqn:Hr1; simpl in H1;
    [|discriminate H1].
  injection H1 as H1. subst d1.
  destruct (process_rows en eid (recount_aggregates d0' eid) rows) as [d'|e] eqn:Hr2;
    simpl in H2; [|discriminate H2].
  injection H2 as H2. subst d2.
  destruct (RerunRowFacts.process_rows_present en eid rows _ d' Hr2 Hres) as (Hc & He & Hp).
  rewrite RerunFacts.recount_attendance in Hc.
  assert (Hcnt : forall p, count_checked_in (attendance d') p =
                           count_checked_in (attendance d0') p).
  { intros p. rewrite !RerunFacts.count_checked_in_fmap, Hc. reflexivity. }
  assert (Hatt : forall q, existsb (fun '(k, _) => (k.1 =? q) && (k.2 =? eid))
                             (map_to_list (attendance d')) =
                           existsb (fun '(k, _) => (k.1 =? q) && (k.2 =? eid))
                             (map_to_list (attendance d0'))).
  { intros q. rewrite !(RerunFacts.attended_fmap _ q), Hc. reflexivity. }
  split; [exact RerunFacts.insert_attendance_present|].
  rewrite !RerunFacts.recount_attendance.
  split; [|split; [exact Hc|split]].
  - rewrite <- (dom_fmap_L checked_in (attendance d')), Hc, dom_fmap_L. reflexivity.
  - rewrite RerunFacts.recount_event, He, Hcnt.
    unfold recount_aggregates, update_person_attendance_counts, update_event_attendance_count.
    simpl. rewrite lookup_alter_eq. destruct (events d0' !! eid); reflexivity.
  - intros q. rewrite RerunFacts.recount_person, Hatt, Hcnt.
    pose proof (Hp q) as Hq.
    pose proof (RerunFacts.recount_person d0' eid q) as H0.
    destruct (people d' !! q) as [x|];
      destruct (people (recount_aggregates d0' eid) !! q) as [y|]; simpl in Hq |- *;
      try discriminate Hq; [|reflexivity].
    injection Hq as Hq. rewrite Hq.
    destruct (existsb _ (map_to_list (attendance d0'))) eqn:EA; [|reflexivity].
    destruct (people d0' !! q) as [z|]; simpl in H0; [|discriminate H0].
    injection H0 as H0. rewrite H0. reflexivity.
Qed.

Lemma attendance_rerun_stable_witness :
  let en := mk_env 2025 10 (fun _ => None) in
  exists d1 d2,
    process_event_csv en 5 first_event_db [checkin_row] = Ok d1 /\
    process_event_csv en 5 d1 [checkin_row] = Ok d2 /\
    rows_resolve_to_attendees en 5 d1 [checkin_row] = true /\
    size (attendance d1) = 2%nat /\
    dom (attendance d2) = dom (attendance d1) /\
    event_attendance <$> events d2 !! 5 = event_attendance <$> events d1 !! 5.
Proof.
  intros en.
  destruct (process_event_csv en 5 first_event_db [checkin_row]) as [d1|e] eqn:H1;
    [|vm_compute in H1; discriminate H1].
  assert (Hres : rows_resolve_to_attendees en 5 d1 [checkin_row] = true /\
                 size (attendance d1) = 2%nat).
  { pose proof H1 as E. vm_compute in E. injection E as E. subst d1.
    split; vm_compute; reflexivity. }
  destruct (process_event_csv en 5 d1 [checkin_row]) as [d2|e] eqn:H2.
  - destruct (attendance_rerun_stable en 5 first_event_db [checkin_row] d1 d2 H1 H2
                (proj1 Hres)) as (_ & Hdom & _ & Hev & _).
    exists d1, d2. split; [reflexivity|]. split; [exact H2|].
    split; [exact (proj1 Hres)|]. split; [exact (proj2 Hres)|]. auto.
  - pose proof H1 as E. vm_compute in E. injection E as E. subst d1.
    vm_compute in H2. discriminate H2.
Defined.
